(** * Tile decompressor of the Alien Soldier ROM tools

    Shallow embedding of the two Python decoders of the repository,
    [unpack] (src/unpacker.py) and [unpack_tiles] (src/scripts/split.py),
    and the properties of the decoding loop.

    Python integers are unbounded, so every integer of the source is a [Z];
    the ROM buffer and the decoded output ([array('B')] or a Python list of
    its items) are lists of [Z].  Indexing follows Python: a negative index
    counts from the end, an index outside the sequence raises [IndexError].
    The embedding covers each function from its first line to the end of its
    [while] loop; the decoded bytes are the value of [res] at that point,
    which the rest of the function hands to the file writer.  The batch
    loop of [main] in split.py and the dump [log_hex_data] of unpacker.py
    follow the decoders. *)

From Stdlib Require Import ZArith List Bool Lia.
Import ListNotations.
Local Open Scope Z_scope.

(** ** Python values and exceptions *)

Inductive exn : Type := IndexError.

Inductive result (A : Type) : Type :=
| Ok (a : A)
| Raise (e : exn).
Arguments Ok {A} a.
Arguments Raise {A} e.

Definition bind {A B : Type} (r : result A) (k : A -> result B) : result B :=
  match r with
  | Ok a => k a
  | Raise e => Raise e
  end.

Notation "x <- e ;; k" := (bind e (fun x => k))
  (at level 61, e at next level, right associativity).
Notation "' p <- e ;; k" := (bind e (fun x => let 'p := x in k))
  (at level 61, p pattern, e at next level, right associativity).

Module Py.

(** [len(l)] *)
Definition len {A : Type} (l : list A) : Z := Z.of_nat (length l).

(** [l[i]] on a list or an array: negative indices count from the end. *)
Definition getitem (l : list Z) (i : Z) : result Z :=
  if (0 <=? i) && (i <? len l) then Ok (nth (Z.to_nat i) l 0)
  else if (- len l <=? i) && (i <? 0) then Ok (nth (Z.to_nat (len l + i)) l 0)
  else Raise IndexError.

(** [l[start:]] *)
Definition slice_from (l : list Z) (start : Z) : list Z :=
  let lo := if start <? 0 then Z.max 0 (len l + start) else Z.min start (len l) in
  skipn (Z.to_nat lo) l.

(** the number of turns of [for _ in range(n)] *)
Definition range (n : Z) : nat := Z.to_nat n.

End Py.

(** ** Decoder state

    The three variables the loop updates: the read cursor [idx], the output
    counter [idx_res] and the decoded output [res]. *)

Record state : Type := mkState {
  idx : Z;
  idx_res : Z;
  res : list Z
}.

(** How the [while] loop of a decoder ends. *)
Inductive outcome (A : Type) : Type :=
| Finished (a : A)
| Raised (e : exn)
| OutOfFuel.
Arguments Finished {A} a.
Arguments Raised {A} e.
Arguments OutOfFuel {A}.

(** ** The inner [for] loops

    The five loops are the same text in both files. *)

(** Back-reference copy (unpacker.py 43-47, split.py 29-33). *)
Fixpoint copy_window (n : nat) (idx_window idx_res : Z) (res : list Z)
  : result (Z * list Z) :=
  match n with
  | O => Ok (idx_res, res)
  | S n' =>
      s <- Py.getitem res idx_window ;;
      copy_window n' (idx_window + 1) (idx_res + 1) (res ++ [s])
  end.

(** Alternating-pair run (unpacker.py 54-59, split.py 41-46). *)
Fixpoint run_alternating (n : nat) (arr : list Z) (z idx idx_res : Z)
  (res : list Z) : result (Z * Z * list Z) :=
  match n with
  | O => Ok (idx, idx_res, res)
  | S n' =>
      let res := res ++ [z] in
      let idx := idx + 1 in
      s <- Py.getitem arr idx ;;
      run_alternating n' arr z idx (idx_res + 2) (res ++ [s])
  end.

(** Single-byte run (unpacker.py 64-66, split.py 52-54). *)
Fixpoint run_single (n : nat) (s idx_res : Z) (res : list Z) : Z * list Z :=
  match n with
  | O => (idx_res, res)
  | S n' => run_single n' s (idx_res + 1) (res ++ [s])
  end.

(** Two-byte pattern run (unpacker.py 73-76, split.py 62-65). *)
Fixpoint run_pattern (n : nat) (s1 s2 idx_res : Z) (res : list Z)
  : Z * list Z :=
  match n with
  | O => (idx_res, res)
  | S n' => run_pattern n' s1 s2 (idx_res + 2) ((res ++ [s1]) ++ [s2])
  end.

(** Literal run (unpacker.py 79-83, split.py 69-73). *)
Fixpoint run_literal (n : nat) (arr : list Z) (idx idx_res : Z)
  (res : list Z) : result (Z * Z * list Z) :=
  match n with
  | O => Ok (idx, idx_res, res)
  | S n' =>
      let idx := idx + 1 in
      s <- Py.getitem arr idx ;;
      run_literal n' arr idx (idx_res + 1) (res ++ [s])
  end.

(** ** One turn of the [while] loop *)

(** The branches for opcodes below 0x80 (unpacker.py 49-83,
    split.py 35-73); [idx] is not yet moved past the opcode. *)
Definition short_opcode (arr : list Z) (byte_read : Z) (st : state)
  : result state :=
  let idx := idx st in
  let idx_res := idx_res st in
  let res := res st in
  if negb (Z.land byte_read (Z.shiftl 1 5) =? 0) then
    if negb (Z.land byte_read (Z.shiftl 1 6) =? 0) then
      let cnt := Z.land byte_read 0x1F + 1 in
      let idx := idx + 1 in
      z <- Py.getitem arr idx ;;
      '(idx, idx_res, res) <-
        run_alternating (Py.range (cnt + 1)) arr z idx idx_res res ;;
      Ok (mkState idx idx_res res)
    else
      let cnt := Z.land byte_read 0x1F + 1 in
      let idx := idx + 1 in
      s <- Py.getitem arr idx ;;
      let '(idx_res, res) := run_single (Py.range (cnt + 1)) s idx_res res in
      Ok (mkState idx idx_res res)
  else
    if negb (Z.land byte_read (Z.shiftl 1 6) =? 0) then
      let cnt := Z.land byte_read 0x1F + 1 in
      s1 <- Py.getitem arr (idx + 1) ;;
      s2 <- Py.getitem arr (idx + 2) ;;
      let idx := idx + 2 in
      let '(idx_res, res) :=
        run_pattern (Py.range (cnt + 1)) s1 s2 idx_res res in
      Ok (mkState idx idx_res res)
    else
      let cnt := Z.land byte_read 0x1F in
      '(idx, idx_res, res) <-
        run_literal (Py.range (cnt + 1)) arr idx idx_res res ;;
      Ok (mkState idx idx_res res).

(** The value of [tmp] when the copy starts, in src/unpacker.py
    (lines 39-41): the two bytes are added, then shifted. *)
Definition unpack_distance (byte_read s : Z) : Z :=
  let tmp := byte_read + s in
  let tmp := Z.land (Z.shiftl tmp 8) 0xFFFF in
  let tmp := Z.land tmp 0x3FF + 1 in
  tmp.

(** The value of [tmp] when the copy starts, in src/scripts/split.py
    (lines 21, 23, 26, 27): the opcode is shifted, then the operand added. *)
Definition tiles_distance (byte_read s : Z) : Z :=
  let tmp := byte_read in
  let tmp := Z.land (Z.shiftl tmp 8) 0xFFFF in
  let tmp := tmp + s in
  let tmp := Z.land tmp 0x3FF + 1 in
  tmp.

(** Loop body of [unpack], src/unpacker.py lines 34-85. *)
Definition unpack_body (arr : list Z) (st : state) : result state :=
  byte_read <- Py.getitem arr (idx st) ;;
  st' <-
    (if 0x80 <=? byte_read then
       let cnt := Z.land (Z.shiftr byte_read 2) 0x1F + 1 in
       let idx := idx st + 1 in
       s <- Py.getitem arr idx ;;
       let tmp := byte_read + s in
       let tmp := Z.land (Z.shiftl tmp 8) 0xFFFF in
       let tmp := Z.land tmp 0x3FF + 1 in
       let idx_window := idx_res st - tmp in
       '(idx_res, res) <-
         copy_window (Py.range (cnt + 1)) idx_window (idx_res st) (res st) ;;
       Ok (mkState idx idx_res res)
     else short_opcode arr byte_read st) ;;
  Ok (mkState (idx st' + 1) (idx_res st') (res st')).

(** Loop body of [unpack_tiles], src/scripts/split.py lines 18-75. *)
Definition unpack_tiles_body (arr : list Z) (st : state) : result state :=
  byte_read <- Py.getitem arr (idx st) ;;
  st' <-
    (if 0x80 <=? byte_read then
       let tmp := byte_read in
       let cnt := Z.land (Z.shiftr byte_read 2) 0x1F + 1 in
       let tmp := Z.land (Z.shiftl tmp 8) 0xFFFF in
       let idx := idx st + 1 in
       s <- Py.getitem arr idx ;;
       let tmp := tmp + s in
       let tmp := Z.land tmp 0x3FF + 1 in
       let idx_window := idx_res st - tmp in
       '(idx_res, res) <-
         copy_window (Py.range (cnt + 1)) idx_window (idx_res st) (res st) ;;
       Ok (mkState idx idx_res res)
     else short_opcode arr byte_read st) ;;
  Ok (mkState (idx st' + 1) (idx_res st') (res st')).

(** ** The [while] loop

    [while idx <= size and idx <= len(arr)] (unpacker.py 33, split.py 17). *)
Definition loop_test (arr : list Z) (size : Z) (st : state) : bool :=
  (idx st <=? size) && (idx st <=? Py.len arr).

(** The loop over a given body.  [fuel] bounds the number of turns; the
    first component of the result lists the states in which a turn began,
    in order. *)
Fixpoint while_loop (body : list Z -> state -> result state) (fuel : nat)
  (arr : list Z) (size : Z) (st : state) : list state * outcome state :=
  if loop_test arr size st then
    match fuel with
    | O => ([], OutOfFuel)
    | S fuel' =>
        match body arr st with
        | Ok st' =>
            let (turns, out) := while_loop body fuel' arr size st' in
            (st :: turns, out)
        | Raise e => ([st], Raised e)
        end
    end
  else ([], Finished st).

(** ** The decoders *)

(** Lines 28-29 (unpacker.py) and 12-13 (split.py), with [res] empty. *)
Definition initial : state := mkState 2 0 [].

(** [size = arr[0] * 0x100 + arr[1]] *)
Definition declared_size (arr : list Z) : result Z :=
  a0 <- Py.getitem arr 0 ;;
  a1 <- Py.getitem arr 1 ;;
  Ok (a0 * 0x100 + a1).

(** A decoder up to the end of its loop: the turns begun and the final
    state.  The loop is given [size] units of fuel, which
    [while_loop_terminates] shows to be enough. *)
Definition decode (body : list Z -> state -> result state)
  (data : list Z) (addr : Z) : list state * outcome state :=
  let arr := Py.slice_from data addr in
  match declared_size arr with
  | Ok size => while_loop body (Z.to_nat size) arr size initial
  | Raise e => ([], Raised e)
  end.

Definition decoded (r : list state * outcome state) : outcome (list Z) :=
  match snd r with
  | Finished st => Finished (res st)
  | Raised e => Raised e
  | OutOfFuel => OutOfFuel
  end.

(** The bytes [unpack] has decoded when it opens its output file. *)
Definition unpack (data : list Z) (addr : Z) : outcome (list Z) :=
  decoded (decode unpack_body data addr).

(** The bytes [unpack_tiles] writes to its output file; the function
    returns their number. *)
Definition unpack_tiles (data : list Z) (addr : Z) : outcome (list Z) :=
  decoded (decode unpack_tiles_body data addr).

(** ** The two bodies as one

    The bodies differ in the computation of [tmp] alone; [body_with] takes
    it as an argument, so that facts of the loop are proved once. *)
Definition body_with (distance : Z -> Z -> Z) (arr : list Z) (st : state)
  : result state :=
  byte_read <- Py.getitem arr (idx st) ;;
  st' <-
    (if 0x80 <=? byte_read then
       let cnt := Z.land (Z.shiftr byte_read 2) 0x1F + 1 in
       s <- Py.getitem arr (idx st + 1) ;;
       '(idx_res, res) <-
         copy_window (Py.range (cnt + 1))
           (idx_res st - distance byte_read s) (idx_res st) (res st) ;;
       Ok (mkState (idx st + 1) idx_res res)
     else short_opcode arr byte_read st) ;;
  Ok (mkState (idx st' + 1) (idx_res st') (res st')).

(** ** Predicates of the statements *)

(** [idx_res] counts the decoded bytes. *)
Definition counts_output (st : state) : Prop := idx_res st = Py.len (res st).

(** The loop has ended, normally or by an exception. *)
Definition terminated {A : Type} (o : outcome A) : Prop :=
  match o with
  | OutOfFuel => False
  | _ => True
  end.

(** [P] holds of the state the loop leaves, when it ends normally. *)
Definition at_exit (P : state -> Prop) (o : outcome state) : Prop :=
  match o with
  | Finished st => P st
  | _ => True
  end.

(** [P] holds of every state in which a turn began and of the state the
    loop leaves. *)
Definition holds_throughout (P : state -> Prop)
  (r : list state * outcome state) : Prop :=
  Forall P (fst r) /\ at_exit P (snd r).

(** With [fuel] units of fuel the loop over [body] ends after at most
    [size] turns, [size - 1] when [size] is positive, with the result it
    has on [size] units of fuel. *)
Definition ends_within (body : list Z -> state -> result state)
  (arr : list Z) (size : Z) (fuel : nat) : Prop :=
  terminated (snd (while_loop body fuel arr size initial)) /\
  (length (fst (while_loop body fuel arr size initial)) <= Z.to_nat size)%nat /\
  Z.of_nat (length (fst (while_loop body fuel arr size initial)))
    <= Z.max 0 (size - 1) /\
  while_loop body fuel arr size initial
    = while_loop body (Z.to_nat size) arr size initial.

(** The opcode a turn reads is below 0x80, or there is none to read. *)
Definition short_turn (arr : list Z) (st : state) : bool :=
  match Py.getitem arr (idx st) with
  | Ok byte_read => byte_read <? 0x80
  | Raise _ => true
  end.

(** Follows the spec's words: the opcode [b] is the high byte and the
    operand [s] the low byte of a 16-bit value, which is masked to 10 bits
    and increased by 1. *)
Definition spec_distance (b s : Z) : Z := (b * 256 + s) mod 1024 + 1.

(** The place, counted from 0, of the item that Python's index [i] denotes
    in a sequence of [n] items: a negative index counts from the end. *)
Definition item_position (n i : Z) : Z := if i <? 0 then n + i else i.

(** The place in the output from which a back-reference of the given
    distance copies its [k]-th byte ([k] from 0), the output being [len]
    bytes long when the copy starts.  The copy reads [res[idx_window]]
    with [idx_window = len - distance + k], in an output that has grown to
    [len + k] bytes: from [len - distance + k] when this is not negative,
    and otherwise from [2*len - distance + 2*k], counted from the end of
    the output of that moment. *)
Definition copy_source (len distance k : Z) : Z :=
  item_position (len + k) (len - distance + k).

(** The turn of [body] in [st] on a back-reference with opcode [b] is
    carried out: it moves the cursor by two and appends
    [((b >> 2) & 0x1F) + 2] bytes [t], of which the [k]-th is the byte at
    the place [copy_source] of the output, a place before the one it is
    written to. *)
Definition copies_from_source (body : list Z -> state -> result state)
  (distance : Z) (arr : list Z) (st : state) (b : Z) : Prop :=
  exists t,
    body arr st
    = Ok (mkState (idx st + 2) (idx_res st + Py.len t) (res st ++ t)) /\
    Py.len t = Z.land (Z.shiftr b 2) 0x1F + 2 /\
    forall k, 0 <= k < Py.len t ->
      0 <= copy_source (Py.len (res st)) distance k < Py.len (res st) + k /\
      nth (Z.to_nat k) t 0
      = nth (Z.to_nat (copy_source (Py.len (res st)) distance k))
          (res st ++ t) 0.

(** ** Vocabulary of the further properties *)

(** The two decoders of the repository. *)
Inductive decoder : Type :=
| Unpack       (* unpack, src/unpacker.py *)
| UnpackTiles. (* unpack_tiles, src/scripts/split.py *)

Definition body_of (d : decoder) : list Z -> state -> result state :=
  match d with
  | Unpack => unpack_body
  | UnpackTiles => unpack_tiles_body
  end.

Definition distance_of (d : decoder) : Z -> Z -> Z :=
  match d with
  | Unpack => unpack_distance
  | UnpackTiles => tiles_distance
  end.

(** The decoded bytes, by either decoder. *)
Definition unpack_by (d : decoder) (data : list Z) (addr : Z)
  : outcome (list Z) :=
  decoded (decode (body_of d) data addr).

(** The number of operand bytes the opcode [b] below 0x80 reads after
    itself: [b + 1] literal bytes, the byte of a single-byte run, the two
    bytes of a pattern, or the fixed byte of an alternating run and its
    [(b & 0x1F) + 2] fresh bytes. *)
Definition operands (b : Z) : Z :=
  if b <? 0x20 then b + 1
  else if b <? 0x40 then 1
  else if b <? 0x60 then 2
  else b - 0x60 + 3.

(** The [n] items of [arr] from index [i] on, [arr[i:i+n]] for
    non-negative [i] and [n]. *)
Definition taken (arr : list Z) (i n : Z) : list Z :=
  firstn (Z.to_nat n) (skipn (Z.to_nat i) arr).

(** [z] before each item of [l]. *)
Definition interleave (z : Z) (l : list Z) : list Z :=
  flat_map (fun a => [z; a]) l.

(** [n] copies of the pair [s1 s2]. *)
Definition pairs (s1 s2 : Z) (n : nat) : list Z :=
  concat (repeat [s1; s2] n).

(** What the loop of a decoder keeps from the initial state on: the cursor
    is inside the input and at most 35 beyond the declared size, the output
    is at most 22 times as long as the input consumed, and every decoded
    byte occurs in the input. *)
Definition well_placed (arr : list Z) (size : Z) (st : state) : Prop :=
  2 <= idx st <= Py.len arr /\
  idx st <= Z.max 2 (size + 35) /\
  Py.len (res st) <= 22 * (idx st - 2) /\
  (forall x, In x (res st) -> In x arr).

(** ** The batch loop of [main]

    src/scripts/split.py lines 128-142: every address is decoded inside a
    [try]; [except Exception] counts the failure and the loop goes on.
    [written] lists the output files in the order in which [unpack_tiles]
    writes them, each as the block address (from which the file name is
    formatted) and the bytes written.  The directory and the files are
    taken to be writable, so that the decoding loop is what can raise. *)

Record tally : Type := mkTally {
  success_count : Z;
  fail_count : Z;
  written : list (Z * list Z)
}.

(** One turn of the [for] loop.  The last case is not reached
    ([decode_terminates]). *)
Definition extract (data : list Z) (t : tally) (addr : Z) : tally :=
  match unpack_tiles data addr with
  | Finished r =>
      mkTally (success_count t + 1) (fail_count t) (written t ++ [(addr, r)])
  | Raised _ => mkTally (success_count t) (fail_count t + 1) (written t)
  | OutOfFuel => t
  end.

Definition extract_all (data : list Z) (tiles_addrs : list Z) : tally :=
  fold_left (extract data) tiles_addrs (mkTally 0 0 []).

(** [return 1 if fail_count > 0 else 0] *)
Definition main_status (data : list Z) (tiles_addrs : list Z) : Z :=
  if fail_count (extract_all data tiles_addrs) >? 0 then 1 else 0.

(** ** The hexadecimal dump

    [log_hex_data], src/unpacker.py lines 11-21; the value of [log_hex_data]
    is the text it prints. *)

From Stdlib Require Ascii String.

Module Log.

Import Ascii String.

Definition newline : string := String (ascii_of_nat 10) EmptyString.

Definition hex_digit (n : Z) : ascii :=
  match n with
  | 0 => "0" | 1 => "1" | 2 => "2" | 3 => "3"
  | 4 => "4" | 5 => "5" | 6 => "6" | 7 => "7"
  | 8 => "8" | 9 => "9" | 10 => "A" | 11 => "B"
  | 12 => "C" | 13 => "D" | 14 => "E" | _ => "F"
  end%char.

(** The digits of [n] in base 16 before [acc], most significant first;
    [fuel] is at least the number of digits. *)
Fixpoint hex_digits (fuel : nat) (n : Z) (acc : string) : string :=
  match fuel with
  | O => acc
  | S fuel' =>
      if n <? 16 then String (hex_digit n) acc
      else hex_digits fuel' (n / 16) (String (hex_digit (n mod 16)) acc)
  end.

Definition to_hex (n : Z) : string :=
  hex_digits (S (Z.to_nat (Z.log2 n))) n EmptyString.

(** [f'{rec:02X}']: upper-case hexadecimal, padded with zeros to two
    characters, the sign of a negative number counting as one. *)
Definition format_02X (rec : Z) : string :=
  if rec <? 0 then ("-" ++ to_hex (- rec))%string
  else
    let digits := to_hex rec in
    if Z.of_nat (String.length digits) <? 2 then ("0" ++ digits)%string
    else digits.

(** The [for] loop, lines 14-21, from a given value of [idx]. *)
Fixpoint log_loop (data : list Z) (idx : Z) : string :=
  match data with
  | [] => EmptyString
  | rec :: data' =>
      let out := (format_02X rec ++ " ")%string in
      let idx := idx + 1 in
      let out := if idx =? 8 then (out ++ "  ")%string else out in
      if idx =? 16 then (out ++ newline ++ log_loop data' 0)%string
      else (out ++ log_loop data' idx)%string
  end.

Definition log_hex_data (data : list Z) : string :=
  (newline ++ log_loop data 0)%string.

(** The cells of a row: each item as two digits and a space. *)
Definition cells (row : list Z) : string :=
  fold_right (fun rec out => (format_02X rec ++ " " ++ out)%string)
    EmptyString row.

End Log.

(** ** The bodies are instances of [body_with] *)

Lemma unpack_body_with arr st :
  unpack_body arr st = body_with unpack_distance arr st.
Proof. reflexivity. Qed.

Lemma unpack_tiles_body_with arr st :
  unpack_tiles_body arr st = body_with tiles_distance arr st.
Proof. reflexivity. Qed.

(** ** Facts of Python indexing *)

Lemma len_app {A : Type} (l l' : list A) :
  Py.len (l ++ l') = Py.len l + Py.len l'.
Proof. unfold Py.len. rewrite length_app. lia. Qed.

Lemma len_snoc {A : Type} (l : list A) (x : A) :
  Py.len (l ++ [x]) = Py.len l + 1.
Proof. rewrite len_app. reflexivity. Qed.

Lemma len_nonneg {A : Type} (l : list A) : 0 <= Py.len l.
Proof. unfold Py.len. lia. Qed.

Lemma getitem_ok_iff l i :
  (exists v, Py.getitem l i = Ok v) <-> - Py.len l <= i < Py.len l.
Proof.
  unfold Py.getitem.
  destruct (0 <=? i) eqn:H0, (i <? Py.len l) eqn:H1,
    (- Py.len l <=? i) eqn:H2, (i <? 0) eqn:H3; simpl;
    split; intros H; try (eexists; reflexivity); try lia;
    destruct H as [v H]; discriminate.
Qed.

Lemma getitem_raise_iff l i :
  Py.getitem l i = Raise IndexError <-> (i < - Py.len l \/ Py.len l <= i).
Proof.
  pose proof (getitem_ok_iff l i) as H.
  destruct (Py.getitem l i) as [v|[]] eqn:E.
  - split; [discriminate|]. intros Hi.
    assert (- Py.len l <= i < Py.len l) by (apply H; eauto). lia.
  - split; [intros _|reflexivity].
    destruct (Z_lt_dec i (- Py.len l)); [now left|right].
    destruct (Z_le_dec (Py.len l) i); [assumption|].
    destruct H as [_ H]. destruct H as [v Hv]; [lia|discriminate].
Qed.

Lemma getitem_nonneg l i :
  0 <= i < Py.len l -> Py.getitem l i = Ok (nth (Z.to_nat i) l 0).
Proof.
  intros H. unfold Py.getitem.
  destruct (0 <=? i) eqn:H0, (i <? Py.len l) eqn:H1; simpl; try reflexivity; lia.
Qed.

Lemma getitem_negative l i :
  - Py.len l <= i < 0 ->
  Py.getitem l i = Ok (nth (Z.to_nat (Py.len l + i)) l 0).
Proof.
  intros H. unfold Py.getitem.
  destruct (0 <=? i) eqn:H0; simpl; [lia|].
  destruct (- Py.len l <=? i) eqn:H2, (i <? 0) eqn:H3; simpl;
    try reflexivity; lia.
Qed.

(** ** Facts of the inner loops *)

Lemma copy_window_counts n : forall w ir r ir' r',
  copy_window n w ir r = Ok (ir', r') ->
  ir' = ir + Z.of_nat n /\ Py.len r' = Py.len r + Z.of_nat n.
Proof.
  induction n as [|n IH]; intros w ir r ir' r' H; simpl in H.
  - injection H as <- <-. lia.
  - destruct (Py.getitem r w) as [s|e]; simpl in H; [|discriminate].
    apply IH in H. rewrite len_snoc in H. lia.
Qed.

(** A copy of at least one byte succeeds exactly when its first read does:
    the window and the output grow together. *)
Lemma copy_window_ok n : forall w ir r,
  - Py.len r <= w < Py.len r ->
  exists ir' r', copy_window n w ir r = Ok (ir', r').
Proof.
  induction n as [|n IH]; intros w ir r H; simpl.
  - eauto.
  - destruct (proj2 (getitem_ok_iff r w) H) as [s ->]. simpl.
    apply IH. rewrite len_snoc. lia.
Qed.

Lemma copy_window_raise n w ir r :
  w < - Py.len r \/ Py.len r <= w ->
  copy_window (S n) w ir r = Raise IndexError.
Proof.
  intros H. simpl. apply getitem_raise_iff in H. now rewrite H.
Qed.

Lemma run_alternating_counts n : forall arr z i ir r i' ir' r',
  run_alternating n arr z i ir r = Ok (i', ir', r') ->
  i' = i + Z.of_nat n /\ ir' = ir + 2 * Z.of_nat n /\
  Py.len r' = Py.len r + 2 * Z.of_nat n.
Proof.
  induction n as [|n IH]; intros arr z i ir r i' ir' r' H; simpl in H.
  - injection H as <- <- <-. lia.
  - destruct (Py.getitem arr (i + 1)) as [s|e]; simpl in H; [|discriminate].
    apply IH in H. rewrite !len_snoc in H. lia.
Qed.

Lemma run_single_counts n : forall s ir r,
  fst (run_single n s ir r) = ir + Z.of_nat n /\
  Py.len (snd (run_single n s ir r)) = Py.len r + Z.of_nat n.
Proof.
  induction n as [|n IH]; intros s ir r; simpl.
  - lia.
  - specialize (IH s (ir + 1) (r ++ [s])). rewrite len_snoc in IH. lia.
Qed.

Lemma run_pattern_counts n : forall s1 s2 ir r,
  fst (run_pattern n s1 s2 ir r) = ir + 2 * Z.of_nat n /\
  Py.len (snd (run_pattern n s1 s2 ir r)) = Py.len r + 2 * Z.of_nat n.
Proof.
  induction n as [|n IH]; intros s1 s2 ir r; simpl.
  - lia.
  - specialize (IH s1 s2 (ir + 2) ((r ++ [s1]) ++ [s2])).
    rewrite !len_snoc in IH. lia.
Qed.

Lemma run_literal_counts n : forall arr i ir r i' ir' r',
  run_literal n arr i ir r = Ok (i', ir', r') ->
  i' = i + Z.of_nat n /\ ir' = ir + Z.of_nat n /\
  Py.len r' = Py.len r + Z.of_nat n.
Proof.
  induction n as [|n IH]; intros arr i ir r i' ir' r' H; simpl in H.
  - injection H as <- <- <-. lia.
  - destruct (Py.getitem arr (i + 1)) as [s|e]; simpl in H; [|discriminate].
    apply IH in H. rewrite len_snoc in H. lia.
Qed.

(** ** Facts of one turn *)

Lemma land_mask_nonneg a m : 0 <= m -> 0 <= Z.land a m.
Proof. intros H. apply Z.land_nonneg. now right. Qed.

Lemma range_succ c : 0 <= c -> Z.of_nat (Py.range (c + 1)) = c + 1.
Proof. intros H. unfold Py.range. lia. Qed.

(** A short opcode keeps [idx_res] equal to the output length and leaves
    [idx] on the last operand byte it consumed. *)
Lemma short_opcode_spec arr b st st' :
  short_opcode arr b st = Ok st' ->
  idx st + 1 <= idx st' /\
  (counts_output st -> counts_output st').
Proof.
  unfold short_opcode, counts_output. intros H.
  pose proof (land_mask_nonneg b 0x1F ltac:(lia)) as Hc.
  destruct (negb (Z.land b (Z.shiftl 1 5) =? 0)),
    (negb (Z.land b (Z.shiftl 1 6) =? 0)).
  - destruct (Py.getitem arr (idx st + 1)) as [z|e]; simpl in H; [|discriminate].
    destruct (run_alternating _ arr z _ _ _) as [[[i ir] r]|e] eqn:E;
      simpl in H; [|discriminate].
    injection H as <-. simpl. apply run_alternating_counts in E. lia.
  - destruct (Py.getitem arr (idx st + 1)) as [s|e]; simpl in H; [|discriminate].
    pose proof (run_single_counts (Py.range (Z.land b 31 + 1 + 1)) s
                  (idx_res st) (res st)) as E.
    destruct (run_single _ s _ _) as [ir r]. injection H as <-.
    simpl in *. lia.
  - destruct (Py.getitem arr (idx st + 1)) as [s1|e]; simpl in H; [|discriminate].
    destruct (Py.getitem arr (idx st + 2)) as [s2|e]; simpl in H; [|discriminate].
    pose proof (run_pattern_counts (Py.range (Z.land b 31 + 1 + 1)) s1 s2
                  (idx_res st) (res st)) as E.
    destruct (run_pattern _ s1 s2 _ _) as [ir r]. injection H as <-.
    simpl in *. lia.
  - destruct (run_literal _ arr _ _ _) as [[[i ir] r]|e] eqn:E;
      simpl in H; [|discriminate].
    injection H as <-. simpl. apply run_literal_counts in E.
    rewrite range_succ in E by assumption. lia.
Qed.

Section Body.

Variable distance : Z -> Z -> Z.

Lemma body_with_spec arr st st' :
  body_with distance arr st = Ok st' ->
  idx st + 2 <= idx st' /\
  (counts_output st -> counts_output st').
Proof.
  unfold body_with. intros H.
  destruct (Py.getitem arr (idx st)) as [b|e]; simpl in H; [|discriminate].
  destruct (0x80 <=? b).
  - destruct (Py.getitem arr (idx st + 1)) as [s|e]; simpl in H; [|discriminate].
    destruct (copy_window _ _ _ _) as [[ir r]|e] eqn:E;
      simpl in H; [|discriminate].
    injection H as <-. unfold counts_output. simpl.
    apply copy_window_counts in E. lia.
  - destruct (short_opcode arr b st) as [st1|e] eqn:E;
      simpl in H; [|discriminate].
    injection H as <-. apply short_opcode_spec in E.
    unfold counts_output in *. simpl. lia.
Qed.

(** On a short opcode the distance computation is not reached. *)
Lemma body_with_short (distance' : Z -> Z -> Z) arr st :
  short_turn arr st = true ->
  body_with distance arr st = body_with distance' arr st.
Proof.
  unfold short_turn, body_with. intros H.
  destruct (Py.getitem arr (idx st)) as [b|e]; simpl; [|reflexivity].
  destruct (0x80 <=? b) eqn:Hb; [lia|reflexivity].
Qed.

End Body.

(** ** Facts of the [while] loop *)

Section Loop.

Variable body : list Z -> state -> result state.
Variable arr : list Z.
Variable size : Z.

(** Every turn moves the cursor forward. *)
Hypothesis body_advances :
  forall st st', body arr st = Ok st' -> idx st < idx st'.

(** The loop ends within [size + 1 - idx] turns, whatever fuel it has
    beyond that. *)
Lemma while_loop_bound fuel : forall st,
  size + 1 - idx st <= Z.of_nat fuel ->
  terminated (snd (while_loop body fuel arr size st)) /\
  Z.of_nat (length (fst (while_loop body fuel arr size st)))
    <= Z.max 0 (size + 1 - idx st).
Proof.
  induction fuel as [|fuel IH]; intros st Hf; simpl;
    destruct (loop_test arr size st) eqn:Ht; simpl; try (split; [exact I|lia]).
  - unfold loop_test in Ht. lia.
  - destruct (body arr st) as [st'|e] eqn:Hb; simpl.
    + apply body_advances in Hb.
      destruct (IH st' ltac:(lia)) as [H1 H2].
      destruct (while_loop body fuel arr size st') as [turns out].
      simpl in *. split; [assumption|]. unfold loop_test in Ht. lia.
    + split; [exact I|]. unfold loop_test in Ht. lia.
Qed.

(** More fuel does not change a run that has ended. *)
Lemma while_loop_more_fuel fuel : forall st fuel',
  terminated (snd (while_loop body fuel arr size st)) ->
  (fuel <= fuel')%nat ->
  while_loop body fuel' arr size st = while_loop body fuel arr size st.
Proof.
  induction fuel as [|fuel IH]; intros st fuel' Ht Hle; simpl in *.
  - destruct fuel'; simpl; destruct (loop_test arr size st);
      simpl in Ht; try reflexivity; contradiction.
  - destruct fuel' as [|fuel']; [lia|]. simpl.
    destruct (loop_test arr size st); [|reflexivity].
    destruct (body arr st) as [st'|e]; [|reflexivity].
    rewrite (IH st' fuel'); [reflexivity| |lia].
    destruct (while_loop body fuel arr size st'). assumption.
Qed.

End Loop.

Section Invariant.

Variable body : list Z -> state -> result state.
Variable arr : list Z.
Variable size : Z.
Variable P : state -> Prop.

Hypothesis body_keeps : forall st st', body arr st = Ok st' -> P st -> P st'.

(** A property every turn keeps holds when each turn begins and when the
    loop is left. *)
Lemma while_loop_invariant fuel : forall st,
  P st ->
  Forall P (fst (while_loop body fuel arr size st)) /\
  at_exit P (snd (while_loop body fuel arr size st)).
Proof.
  induction fuel as [|fuel IH]; intros st HP; simpl;
    destruct (loop_test arr size st); simpl; auto.
  destruct (body arr st) as [st'|e] eqn:Hb; simpl.
  - destruct (IH st' (body_keeps _ _ Hb HP)) as [H1 H2].
    destruct (while_loop body fuel arr size st'). simpl in *. auto.
  - auto.
Qed.

End Invariant.

(** Two bodies that agree on the states in which the first one begins a
    turn give the same run. *)
Lemma while_loop_agree (body body' : list Z -> state -> result state)
  (Q : state -> bool) arr size :
  (forall st, Q st = true -> body arr st = body' arr st) ->
  forall fuel st,
    forallb Q (fst (while_loop body fuel arr size st)) = true ->
    while_loop body' fuel arr size st = while_loop body fuel arr size st.
Proof.
  intros Hagree. induction fuel as [|fuel IH]; intros st H; simpl in *;
    destruct (loop_test arr size st); try reflexivity.
  destruct (body arr st) as [st'|e] eqn:Hb.
  - destruct (while_loop body fuel arr size st') as [turns out] eqn:Hw.
    simpl in H. apply andb_true_iff in H as [Hq Hrest].
    rewrite <- (Hagree st Hq), Hb, IH, Hw; [reflexivity|].
    now rewrite Hw.
  - simpl in H. apply andb_true_iff in H as [Hq _].
    now rewrite <- (Hagree st Hq), Hb.
Qed.

(** ** The back-reference distance *)

Lemma mask16_then_mask10 x s :
  Z.land (Z.land x 0xFFFF + s) 0x3FF = (x + s) mod 1024.
Proof.
  change 0xFFFF with (Z.ones 16). change 0x3FF with (Z.ones 10).
  rewrite !Z.land_ones by lia.
  change (2 ^ 16) with 65536. change (2 ^ 10) with 1024.
  pose proof (Z.div_mod x 65536 ltac:(lia)) as Hx.
  replace (x mod 65536 + s) with (x + s + (- 64 * (x / 65536)) * 1024) by lia.
  apply Z_mod_plus_full.
Qed.

(** split.py: the opcode is the high byte, the operand the low byte. *)
Lemma tiles_distance_spec b s :
  tiles_distance b s = spec_distance b s /\
  1 <= tiles_distance b s <= 1024.
Proof.
  assert (tiles_distance b s = spec_distance b s) as ->.
  { unfold tiles_distance, spec_distance. rewrite mask16_then_mask10.
    rewrite Z.shiftl_mul_pow2 by lia. reflexivity. }
  unfold spec_distance.
  pose proof (Z.mod_pos_bound (b * 256 + s) 1024 ltac:(lia)). lia.
Qed.

(** unpacker.py: the sum of the two bytes is shifted, so that the low
    eight bits of the masked value are zero. *)
Lemma unpack_distance_spec b s :
  unpack_distance b s = ((b + s) mod 4) * 256 + 1.
Proof.
  unfold unpack_distance.
  replace (Z.land (Z.shiftl (b + s) 8) 0xFFFF)
    with (Z.land (Z.shiftl (b + s) 8) 0xFFFF + 0) by lia.
  rewrite mask16_then_mask10, Z.add_0_r, Z.shiftl_mul_pow2 by lia.
  change (2 ^ 8) with 256.
  rewrite <- (Zmult_mod_distr_r (b + s) 4 256). reflexivity.
Qed.

Lemma tiles_distance_pos b s : 1 <= tiles_distance b s.
Proof. apply tiles_distance_spec. Qed.

Lemma unpack_distance_pos b s : 1 <= unpack_distance b s.
Proof.
  rewrite unpack_distance_spec.
  pose proof (Z.mod_pos_bound (b + s) 4 ltac:(lia)). lia.
Qed.

(** C1. The distance of a back-reference is ((b*256 + s) mod 1024) + 1 in
    [unpack_tiles] but not in [unpack]: on opcode 0x80 with operand 0x01
    [unpack] computes 257 where the formula gives 2, and on a block that
    holds this back-reference after a two-byte literal [unpack_tiles]
    repeats the two bytes while [unpack] raises [IndexError]. *)
Theorem unpack_distance_diverges :
  spec_distance 0x80 0x01 = 2 /\
  tiles_distance 0x80 0x01 = 2 /\
  unpack_distance 0x80 0x01 = 257 /\
  unpack_tiles [0x00; 0x05; 0x01; 0x11; 0x22; 0x80; 0x01] 0
    = Finished [0x11; 0x22; 0x11; 0x22] /\
  unpack [0x00; 0x05; 0x01; 0x11; 0x22; 0x80; 0x01] 0 = Raised IndexError.
Proof. repeat split; vm_compute; reflexivity. Qed.

(** ** Back-references beyond the start of the output *)

Lemma backref_count_succ b :
  exists m, Py.range (Z.land (Z.shiftr b 2) 0x1F + 1 + 1) = S (S m).
Proof.
  pose proof (land_mask_nonneg (Z.shiftr b 2) 0x1F ltac:(lia)) as H.
  exists (Z.to_nat (Z.land (Z.shiftr b 2) 0x1F)). unfold Py.range. lia.
Qed.

Lemma body_with_backref_raises distance arr st b s :
  counts_output st ->
  Py.getitem arr (idx st) = Ok b -> 0x80 <= b ->
  Py.getitem arr (idx st + 1) = Ok s ->
  1 <= distance b s ->
  (body_with distance arr st = Raise IndexError
   <-> 2 * Py.len (res st) < distance b s).
Proof.
  unfold counts_output, body_with. intros Hc Hb Hge Hs Hd.
  rewrite Hb. cbn [bind]. destruct (0x80 <=? b) eqn:E; [|lia].
  rewrite Hs. cbn [bind]. destruct (backref_count_succ b) as [m ->].
  rewrite Hc. split.
  - intros H. destruct (Z_lt_dec (2 * Py.len (res st)) (distance b s));
      [assumption|exfalso].
    pose proof (len_nonneg (res st)) as Hl.
    assert (- Py.len (res st) <= Py.len (res st) - distance b s
            < Py.len (res st)) as Hw by lia.
    destruct (copy_window_ok (S (S m)) _ (Py.len (res st)) _ Hw)
      as (ir & r & Hok).
    rewrite Hok in H. discriminate.
  - intros H. rewrite copy_window_raise by lia. reflexivity.
Qed.

(** A copy whose first index is valid is carried out to its end, and its
    [k]-th byte is the item that the index [w + k] denotes in the output
    of that moment, which has [k] more bytes than at the start. *)
Lemma copy_window_wrapped n : forall w ir r,
  - Py.len r <= w < Py.len r ->
  exists t,
    copy_window n w ir r = Ok (ir + Z.of_nat n, r ++ t) /\
    length t = n /\
    forall k, (k < n)%nat ->
      0 <= item_position (Py.len r + Z.of_nat k) (w + Z.of_nat k)
        < Py.len r + Z.of_nat k /\
      nth k t 0
      = nth (Z.to_nat (item_position (Py.len r + Z.of_nat k)
                         (w + Z.of_nat k))) (r ++ t) 0.
Proof.
  induction n as [|n IH]; intros w ir r Hw.
  - exists []. rewrite app_nil_r, Z.add_0_r. repeat split; intros; lia.
  - assert (Py.getitem r w
            = Ok (nth (Z.to_nat (item_position (Py.len r) w)) r 0)) as Hs.
    { unfold item_position. destruct (w <? 0) eqn:E.
      - apply getitem_negative. lia.
      - apply getitem_nonneg. lia. }
    assert (0 <= item_position (Py.len r) w < Py.len r) as Hp.
    { unfold item_position. destruct (w <? 0) eqn:E; lia. }
    cbn [copy_window]. rewrite Hs. cbn [bind].
    set (s := nth (Z.to_nat (item_position (Py.len r) w)) r 0).
    destruct (IH (w + 1) (ir + 1) (r ++ [s])) as (t & Hcopy & Hlen & Hnth).
    { rewrite len_snoc. lia. }
    exists (s :: t). rewrite Hcopy, <- app_assoc. cbn [app].
    split; [repeat (f_equal; try lia)|]. split; [simpl; lia|].
    intros [|k] Hk.
    + cbn [Z.of_nat]. rewrite !Z.add_0_r. split; [exact Hp|].
      cbn [nth]. rewrite app_nth1 by (unfold Py.len in *; lia).
      reflexivity.
    + specialize (Hnth k ltac:(lia)). rewrite len_snoc in Hnth.
      rewrite <- app_assoc in Hnth. cbn [app] in Hnth.
      replace (item_position (Py.len r + Z.of_nat (S k))
                 (w + Z.of_nat (S k)))
        with (item_position (Py.len r + 1 + Z.of_nat k)
                (w + 1 + Z.of_nat k))
        by (f_equal; lia).
      replace (Py.len r + Z.of_nat (S k)) with (Py.len r + 1 + Z.of_nat k)
        by lia.
      exact Hnth.
Qed.

Lemma body_with_backref_wraps distance arr st b s :
  counts_output st ->
  Py.getitem arr (idx st) = Ok b -> 0x80 <= b ->
  Py.getitem arr (idx st + 1) = Ok s ->
  1 <= distance b s <= 2 * Py.len (res st) ->
  copies_from_source (body_with distance) (distance b s) arr st b.
Proof.
  unfold counts_output, copies_from_source, body_with.
  intros Hc Hb Hge Hs Hd.
  pose proof (len_nonneg (res st)) as Hl.
  pose proof (land_mask_nonneg (Z.shiftr b 2) 0x1F ltac:(lia)) as Hcnt.
  rewrite Hb. cbn [bind]. destruct (0x80 <=? b) eqn:E; [|lia].
  rewrite Hs. cbn [bind]. rewrite Hc.
  assert (- Py.len (res st) <= Py.len (res st) - distance b s
          < Py.len (res st)) as Hw by lia.
  destruct (copy_window_wrapped
              (Py.range (Z.land (Z.shiftr b 2) 0x1F + 1 + 1)) _
              (Py.len (res st)) _ Hw) as (t & Hcopy & Hlen & Hnth).
  exists t. rewrite Hcopy. cbn [bind idx idx_res res].
  assert (Py.len t = Z.land (Z.shiftr b 2) 0x1F + 2) as Ht
    by (unfold Py.len, Py.range in *; lia).
  split; [|split; [exact Ht|]].
  - repeat (f_equal; try lia). unfold Py.range. lia.
  - intros k Hk. unfold copy_source.
    specialize (Hnth (Z.to_nat k) ltac:(unfold Py.len in Hk; lia)).
    rewrite Z2Nat.id in Hnth by lia. exact Hnth.
Qed.

(** C2, as stated, fails: with output 01 02 03 a back-reference of
    distance 4 is carried out by [unpack_tiles]; Python reads index -1
    from the end of the output, then index 0, and 03 01 is appended. *)
Lemma backref_beyond_output_wraps :
  ~ (forall arr st b s,
        counts_output st ->
        Py.getitem arr (idx st) = Ok b -> 0x80 <= b ->
        Py.getitem arr (idx st + 1) = Ok s ->
        Py.len (res st) < tiles_distance b s ->
        unpack_tiles_body arr st = Raise IndexError) /\
  unpack_tiles_body [0x00; 0x06; 0x02; 0x01; 0x02; 0x03; 0x80; 0x03]
    (mkState 6 3 [0x01; 0x02; 0x03])
  = Ok (mkState 8 5 [0x01; 0x02; 0x03; 0x03; 0x01]) /\
  unpack_tiles [0x00; 0x06; 0x02; 0x01; 0x02; 0x03; 0x80; 0x03] 0
  = Finished [0x01; 0x02; 0x03; 0x03; 0x01].
Proof.
  split; [|split; vm_compute; reflexivity].
  intros H.
  specialize (H [0x00; 0x06; 0x02; 0x01; 0x02; 0x03; 0x80; 0x03]
                (mkState 6 3 [0x01; 0x02; 0x03]) 0x80 0x03).
  vm_compute in H.
  specialize (H eq_refl eq_refl ltac:(discriminate) eq_refl eq_refl).
  discriminate.
Qed.

(** C2, amended.  A back-reference raises [IndexError] exactly when its
    distance exceeds twice the output length.  Any other back-reference is
    carried out, also when its distance exceeds the output length: its
    [k]-th byte is copied from the place [copy_source] of the output, which
    for a negative index [len - distance + k] is the place
    [2*len - distance + 2*k], counted from the end of the output as it is
    when the byte is read.  Nothing is filled with zeros. *)
Theorem backref_raises_or_wraps arr st b s :
  counts_output st ->
  Py.getitem arr (idx st) = Ok b -> 0x80 <= b ->
  Py.getitem arr (idx st + 1) = Ok s ->
  (unpack_tiles_body arr st = Raise IndexError
   <-> 2 * Py.len (res st) < tiles_distance b s) /\
  (unpack_body arr st = Raise IndexError
   <-> 2 * Py.len (res st) < unpack_distance b s) /\
  (tiles_distance b s <= 2 * Py.len (res st) ->
   copies_from_source unpack_tiles_body (tiles_distance b s) arr st b) /\
  (unpack_distance b s <= 2 * Py.len (res st) ->
   copies_from_source unpack_body (unpack_distance b s) arr st b).
Proof.
  intros Hc Hb Hge Hs.
  pose proof (tiles_distance_pos b s) as Ht.
  pose proof (unpack_distance_pos b s) as Hu.
  split; [|split; [|split]].
  - rewrite unpack_tiles_body_with.
    apply body_with_backref_raises; assumption.
  - rewrite unpack_body_with.
    apply body_with_backref_raises; assumption.
  - intros Hd.
    apply (body_with_backref_wraps tiles_distance arr st b s);
      try assumption. lia.
  - intros Hd.
    apply (body_with_backref_wraps unpack_distance arr st b s);
      try assumption. lia.
Qed.

Lemma backref_raises_or_wraps_witness :
  (unpack_tiles_body [0x00; 0x06; 0x02; 0x01; 0x02; 0x03; 0x80; 0x03]
     (mkState 6 3 [0x01; 0x02; 0x03]) = Raise IndexError
   <-> 2 * Py.len [0x01; 0x02; 0x03] < tiles_distance 0x80 0x03) /\
  (unpack_body [0x00; 0x06; 0x02; 0x01; 0x02; 0x03; 0x80; 0x03]
     (mkState 6 3 [0x01; 0x02; 0x03]) = Raise IndexError
   <-> 2 * Py.len [0x01; 0x02; 0x03] < unpack_distance 0x80 0x03) /\
  (tiles_distance 0x80 0x03 <= 2 * Py.len [0x01; 0x02; 0x03] ->
   copies_from_source unpack_tiles_body (tiles_distance 0x80 0x03)
     [0x00; 0x06; 0x02; 0x01; 0x02; 0x03; 0x80; 0x03]
     (mkState 6 3 [0x01; 0x02; 0x03]) 0x80) /\
  (unpack_distance 0x80 0x03 <= 2 * Py.len [0x01; 0x02; 0x03] ->
   copies_from_source unpack_body (unpack_distance 0x80 0x03)
     [0x00; 0x06; 0x02; 0x01; 0x02; 0x03; 0x80; 0x03]
     (mkState 6 3 [0x01; 0x02; 0x03]) 0x80).
Proof.
  apply (backref_raises_or_wraps
           [0x00; 0x06; 0x02; 0x01; 0x02; 0x03; 0x80; 0x03]
           (mkState 6 3 [0x01; 0x02; 0x03]) 0x80 0x03);
    [reflexivity | reflexivity | lia | reflexivity].
Defined.

(** ** The loop test *)

(** C3. The loop test is [idx <= len(arr)], not [idx < len(arr)]: on the
    two-byte block 00 02 a turn begins with the cursor equal to the length
    of the input, and the opcode read raises [IndexError], in both
    decoders.  So does the second turn on the block 00 04 21 AA, which
    begins with the cursor at 4, the length of the input. *)
Theorem turn_begins_at_end_of_input :
  idx initial = Py.len (Py.slice_from [0x00; 0x02] 0) /\
  loop_test (Py.slice_from [0x00; 0x02] 0) 2 initial = true /\
  decode unpack_tiles_body [0x00; 0x02] 0 = ([initial], Raised IndexError) /\
  decode unpack_body [0x00; 0x02] 0 = ([initial], Raised IndexError) /\
  unpack_tiles [0x00; 0x02] 0 = Raised IndexError /\
  unpack [0x00; 0x02] 0 = Raised IndexError /\
  decode unpack_tiles_body [0x00; 0x04; 0x21; 0xAA] 0
    = ([initial; mkState 4 3 [0xAA; 0xAA; 0xAA]], Raised IndexError) /\
  decode unpack_body [0x00; 0x04; 0x21; 0xAA] 0
    = ([initial; mkState 4 3 [0xAA; 0xAA; 0xAA]], Raised IndexError).
Proof. repeat split; vm_compute; reflexivity. Qed.

(** ** Runs *)

(** C4, as stated, fails: the block 00 03 21 AA decodes to three bytes. *)
Lemma single_run_0x21_not_two_bytes :
  unpack_tiles [0x00; 0x03; 0x21; 0xAA] 0 <> Finished [0xAA; 0xAA] /\
  unpack [0x00; 0x03; 0x21; 0xAA] 0 <> Finished [0xAA; 0xAA].
Proof. split; vm_compute; discriminate. Qed.

(** C4, amended.  Opcode 0x21 with operand 0xAA appends the three bytes
    AA AA AA (the count is (0x21 & 0x1F) + 1 = 2 and the loop runs
    count + 1 times) and moves the cursor by two, in both decoders. *)
Theorem single_run_0x21 arr st :
  Py.getitem arr (idx st) = Ok 0x21 ->
  Py.getitem arr (idx st + 1) = Ok 0xAA ->
  unpack_tiles_body arr st
    = Ok (mkState (idx st + 2) (idx_res st + 3)
            (res st ++ [0xAA; 0xAA; 0xAA])) /\
  unpack_body arr st
    = Ok (mkState (idx st + 2) (idx_res st + 3)
            (res st ++ [0xAA; 0xAA; 0xAA])).
Proof.
  intros Hb Hs. rewrite unpack_body_with, unpack_tiles_body_with.
  unfold body_with. rewrite Hb. cbn [bind].
  change (0x80 <=? 0x21) with false. cbv iota.
  unfold short_opcode. change (Z.land 0x21 (Z.shiftl 1 5) =? 0) with false.
  change (Z.land 0x21 (Z.shiftl 1 6) =? 0) with true. cbn [negb].
  rewrite Hs. cbn [bind].
  change (Py.range (Z.land 0x21 0x1F + 1 + 1)) with 3%nat.
  cbn [run_single idx idx_res res].
  rewrite <- !app_assoc. cbn [app bind idx idx_res res].
  split; do 2 f_equal; lia.
Qed.

Lemma single_run_0x21_witness :
  unpack_tiles_body [0x00; 0x03; 0x21; 0xAA] initial
    = Ok (mkState (idx initial + 2) (idx_res initial + 3)
            (res initial ++ [0xAA; 0xAA; 0xAA])) /\
  unpack_body [0x00; 0x03; 0x21; 0xAA] initial
    = Ok (mkState (idx initial + 2) (idx_res initial + 3)
            (res initial ++ [0xAA; 0xAA; 0xAA])).
Proof.
  apply (single_run_0x21 [0x00; 0x03; 0x21; 0xAA] initial); reflexivity.
Defined.

(** C5, as stated, fails: the block 00 04 41 BB CC decodes to six bytes. *)
Lemma pattern_run_0x41_not_four_bytes :
  unpack_tiles [0x00; 0x04; 0x41; 0xBB; 0xCC] 0
    <> Finished [0xBB; 0xCC; 0xBB; 0xCC] /\
  unpack [0x00; 0x04; 0x41; 0xBB; 0xCC] 0
    <> Finished [0xBB; 0xCC; 0xBB; 0xCC].
Proof. split; vm_compute; discriminate. Qed.

(** C5, amended.  Opcode 0x41 with operands 0xBB 0xCC appends three
    repetitions of the pair, BB CC BB CC BB CC (the count is
    (0x41 & 0x1F) + 1 = 2 and the loop runs count + 1 times), and moves the
    cursor by three, in both decoders. *)
Theorem pattern_run_0x41 arr st :
  Py.getitem arr (idx st) = Ok 0x41 ->
  Py.getitem arr (idx st + 1) = Ok 0xBB ->
  Py.getitem arr (idx st + 2) = Ok 0xCC ->
  unpack_tiles_body arr st
    = Ok (mkState (idx st + 3) (idx_res st + 6)
            (res st ++ [0xBB; 0xCC; 0xBB; 0xCC; 0xBB; 0xCC])) /\
  unpack_body arr st
    = Ok (mkState (idx st + 3) (idx_res st + 6)
            (res st ++ [0xBB; 0xCC; 0xBB; 0xCC; 0xBB; 0xCC])).
Proof.
  intros Hb Hs1 Hs2. rewrite unpack_body_with, unpack_tiles_body_with.
  unfold body_with. rewrite Hb. cbn [bind].
  change (0x80 <=? 0x41) with false. cbv iota.
  unfold short_opcode. change (Z.land 0x41 (Z.shiftl 1 5) =? 0) with true.
  change (Z.land 0x41 (Z.shiftl 1 6) =? 0) with false. cbn [negb].
  rewrite Hs1, Hs2. cbn [bind].
  change (Py.range (Z.land 0x41 0x1F + 1 + 1)) with 3%nat.
  cbn [run_pattern idx idx_res res].
  rewrite <- !app_assoc. cbn [app bind idx idx_res res].
  split; do 2 f_equal; lia.
Qed.

Lemma pattern_run_0x41_witness :
  unpack_tiles_body [0x00; 0x04; 0x41; 0xBB; 0xCC] initial
    = Ok (mkState (idx initial + 3) (idx_res initial + 6)
            (res initial ++ [0xBB; 0xCC; 0xBB; 0xCC; 0xBB; 0xCC])) /\
  unpack_body [0x00; 0x04; 0x41; 0xBB; 0xCC] initial
    = Ok (mkState (idx initial + 3) (idx_res initial + 6)
            (res initial ++ [0xBB; 0xCC; 0xBB; 0xCC; 0xBB; 0xCC])).
Proof.
  apply (pattern_run_0x41 [0x00; 0x04; 0x41; 0xBB; 0xCC] initial);
    reflexivity.
Defined.

(** ** The overlapping copy *)

Lemma getitem_app_suffix pre t j :
  0 <= j -> Py.getitem (pre ++ t) (Py.len pre + j) = Py.getitem t j.
Proof.
  intros Hj. pose proof (len_nonneg pre) as Hp.
  pose proof (len_nonneg t) as Ht.
  destruct (Z_lt_dec j (Py.len t)) as [Hlt|Hge].
  - rewrite !getitem_nonneg by (rewrite ?len_app; lia).
    rewrite app_nth2 by (unfold Py.len in *; lia).
    do 2 f_equal. unfold Py.len. lia.
  - transitivity (@Raise Z IndexError); [|symmetry];
      apply getitem_raise_iff; rewrite ?len_app; lia.
Qed.

(** A copy whose window starts inside a suffix of the output does not
    depend on what precedes the suffix. *)
Lemma copy_window_suffix n : forall pre t j ir,
  0 <= j ->
  copy_window n (Py.len pre + j) ir (pre ++ t)
  = ('(ir', t') <- copy_window n j ir t ;; Ok (ir', pre ++ t')).
Proof.
  induction n as [|n IH]; intros pre t j ir Hj; simpl; [reflexivity|].
  rewrite getitem_app_suffix by assumption.
  destruct (Py.getitem t j) as [s|e]; simpl; [|reflexivity].
  rewrite <- app_assoc, <- Z.add_assoc. apply IH. lia.
Qed.

(** Every byte a copy appends is the byte of the final output at the
    source pointer, which moves by one per byte: where the pointer has
    passed the old end of the output, the byte read is one the same copy
    appended. *)
Lemma copy_window_reads_output n : forall w ir r ir' r',
  0 <= w ->
  copy_window n w ir r = Ok (ir', r') ->
  exists t,
    r' = r ++ t /\ length t = n /\
    forall k, (k < n)%nat -> nth k t 0 = nth (Z.to_nat w + k) (r ++ t) 0.
Proof.
  induction n as [|n IH]; intros w ir r ir' r' Hw H; simpl in H.
  - injection H as _ <-. exists []. rewrite app_nil_r.
    repeat split; intros; lia.
  - destruct (Py.getitem r w) as [s|e] eqn:Hs; simpl in H; [|discriminate].
    assert (w < Py.len r) as Hlt.
    { apply (getitem_ok_iff r w). eauto. }
    rewrite getitem_nonneg in Hs by lia. injection Hs as Hs.
    apply IH in H; [|lia]. destruct H as (t & -> & Hlen & Hnth).
    exists (s :: t). rewrite <- app_assoc. simpl.
    repeat split; [lia|]. intros [|k] Hk.
    + simpl. rewrite Nat.add_0_r, app_nth1 by (unfold Py.len in Hlt; lia).
      now symmetry.
    + simpl. rewrite Hnth by lia. rewrite <- app_assoc. simpl.
      f_equal. lia.
Qed.

(** C6. From an output that ends in 01 02 03, the copy loop run six times
    from three bytes before the end appends 01 02 03 01 02 03: its last
    three reads are of bytes the same copy appended.  In [unpack_tiles]
    this is the back-reference opcode 0x90 with operand 0x02. *)
Theorem backref_overlapping_copy pre arr st :
  res st = pre ++ [0x01; 0x02; 0x03] ->
  counts_output st ->
  Py.getitem arr (idx st) = Ok 0x90 ->
  Py.getitem arr (idx st + 1) = Ok 0x02 ->
  copy_window 6 (idx_res st - 3) (idx_res st) (res st)
    = Ok (idx_res st + 6, res st ++ [0x01; 0x02; 0x03; 0x01; 0x02; 0x03]) /\
  tiles_distance 0x90 0x02 = 3 /\
  Py.range (Z.land (Z.shiftr 0x90 2) 0x1F + 1 + 1) = 6%nat /\
  unpack_tiles_body arr st
    = Ok (mkState (idx st + 2) (idx_res st + 6)
            (res st ++ [0x01; 0x02; 0x03; 0x01; 0x02; 0x03])).
Proof.
  intros Hres Hc Hb Hs.
  assert (copy_window 6 (idx_res st - 3) (idx_res st) (res st)
          = Ok (idx_res st + 6,
                res st ++ [0x01; 0x02; 0x03; 0x01; 0x02; 0x03])) as Hcopy.
  { unfold counts_output in Hc. rewrite Hc, Hres, len_app.
    replace (Py.len pre + Py.len [1; 2; 3] - 3) with (Py.len pre + 0)
      by (unfold Py.len; simpl; lia).
    rewrite copy_window_suffix by lia. cbn. rewrite <- app_assoc.
    do 2 f_equal. lia. }
  split; [exact Hcopy|]. split; [reflexivity|]. split; [reflexivity|].
  unfold unpack_tiles_body. rewrite Hb. cbn [bind].
  change (0x80 <=? 0x90) with true. cbv iota zeta. rewrite Hs. cbn [bind].
  change (Z.land (Z.land (Z.shiftl 0x90 8) 0xFFFF + 0x02) 0x3FF + 1) with 3.
  change (Py.range (Z.land (Z.shiftr 0x90 2) 0x1F + 1 + 1)) with 6%nat.
  rewrite Hcopy. cbn [bind idx idx_res res]. do 2 f_equal. lia.
Qed.

Lemma backref_overlapping_copy_witness :
  copy_window 6 (3 - 3) 3 [0x01; 0x02; 0x03]
    = Ok (3 + 6, [0x01; 0x02; 0x03] ++ [0x01; 0x02; 0x03; 0x01; 0x02; 0x03]) /\
  tiles_distance 0x90 0x02 = 3 /\
  Py.range (Z.land (Z.shiftr 0x90 2) 0x1F + 1 + 1) = 6%nat /\
  unpack_tiles_body [0x00; 0x07; 0x02; 0x01; 0x02; 0x03; 0x90; 0x02]
      (mkState 6 3 [0x01; 0x02; 0x03])
    = Ok (mkState (6 + 2) (3 + 6)
            ([0x01; 0x02; 0x03] ++ [0x01; 0x02; 0x03; 0x01; 0x02; 0x03])).
Proof.
  apply (backref_overlapping_copy []
           [0x00; 0x07; 0x02; 0x01; 0x02; 0x03; 0x90; 0x02]
           (mkState 6 3 [0x01; 0x02; 0x03])); reflexivity.
Defined.

(** ** Termination *)

Lemma unpack_body_advances arr st st' :
  unpack_body arr st = Ok st' -> idx st < idx st'.
Proof.
  rewrite unpack_body_with. intros H.
  apply body_with_spec in H. lia.
Qed.

Lemma unpack_tiles_body_advances arr st st' :
  unpack_tiles_body arr st = Ok st' -> idx st < idx st'.
Proof.
  rewrite unpack_tiles_body_with. intros H.
  apply body_with_spec in H. lia.
Qed.

Lemma while_loop_from_initial body arr size fuel :
  (forall st st', body arr st = Ok st' -> idx st < idx st') ->
  (Z.to_nat size <= fuel)%nat ->
  ends_within body arr size fuel.
Proof.
  intros Hadv Hfuel.
  destruct (while_loop_bound body arr size Hadv fuel initial) as [Ht Hn];
    [simpl; lia|].
  destruct (while_loop_bound body arr size Hadv (Z.to_nat size) initial)
    as [Ht' _]; [simpl; lia|].
  simpl in Hn. repeat split; try assumption; try lia.
  apply while_loop_more_fuel; assumption.
Qed.

(** C7. With any fuel of at least the declared size, the loop of either
    decoder ends, normally or by an exception; it has begun at most
    [size] turns (at most [size - 1] when [size] is positive); and its
    result is the one [decode] computes with [size] units of fuel. *)
Theorem while_loop_terminates arr size fuel :
  (Z.to_nat size <= fuel)%nat ->
  ends_within unpack_body arr size fuel /\
  ends_within unpack_tiles_body arr size fuel.
Proof.
  intros Hfuel. split; apply while_loop_from_initial; try assumption.
  - apply unpack_body_advances.
  - apply unpack_tiles_body_advances.
Qed.

Lemma while_loop_terminates_witness :
  ends_within unpack_body [0x00; 0x03; 0x21; 0xAA] 3 5 /\
  ends_within unpack_tiles_body [0x00; 0x03; 0x21; 0xAA] 3 5.
Proof.
  apply (while_loop_terminates [0x00; 0x03; 0x21; 0xAA] 3 5).
  vm_compute. lia.
Defined.

(** Both decoders come to the end of their loop on every input. *)
Lemma decode_terminates data addr :
  terminated (unpack data addr) /\ terminated (unpack_tiles data addr).
Proof.
  unfold unpack, unpack_tiles, decoded, decode.
  destruct (declared_size (Py.slice_from data addr)) as [size|e];
    [|split; exact I].
  split.
  - destruct (while_loop_from_initial unpack_body (Py.slice_from data addr)
                size (Z.to_nat size) (unpack_body_advances _)
                (Nat.le_refl _)) as [Ht _].
    destruct (snd (while_loop unpack_body _ _ _ _)); auto.
  - destruct (while_loop_from_initial unpack_tiles_body
                (Py.slice_from data addr) size (Z.to_nat size)
                (unpack_tiles_body_advances _) (Nat.le_refl _)) as [Ht _].
    destruct (snd (while_loop unpack_tiles_body _ _ _ _)); auto.
Qed.

(** ** The output counter *)

Lemma counts_output_throughout distance fuel arr size :
  holds_throughout counts_output
    (while_loop (body_with distance) fuel arr size initial).
Proof.
  apply while_loop_invariant.
  - intros st st' H. apply (body_with_spec distance arr st st' H).
  - reflexivity.
Qed.

(** C8. In both decoders [idx_res] equals the length of [res] whenever a
    turn of the loop begins and when the loop is left, for the loop on any
    input and so for the decoder on any ROM buffer and address. *)
Theorem output_counter_invariant fuel arr size data addr :
  holds_throughout counts_output
    (while_loop unpack_body fuel arr size initial) /\
  holds_throughout counts_output
    (while_loop unpack_tiles_body fuel arr size initial) /\
  holds_throughout counts_output (decode unpack_body data addr) /\
  holds_throughout counts_output (decode unpack_tiles_body data addr).
Proof.
  assert (forall d, holds_throughout counts_output
                      (decode (body_with d) data addr)) as Hd.
  { intros d. unfold decode.
    destruct (declared_size (Py.slice_from data addr)) as [sz|e].
    - apply counts_output_throughout.
    - split; simpl; auto. }
  repeat split;
    try apply (counts_output_throughout unpack_distance);
    try apply (counts_output_throughout tiles_distance);
    try apply (Hd unpack_distance); apply (Hd tiles_distance).
Qed.

(** ** Agreement of the two decoders *)

(** C9. When every opcode read during the decoding of a block is below
    0x80, [unpack] and [unpack_tiles] run through the same states and
    decode the same bytes, or raise the same exception. *)
Theorem decoders_agree_without_backrefs data addr :
  forallb (short_turn (Py.slice_from data addr))
    (fst (decode unpack_tiles_body data addr)) = true ->
  decode unpack_body data addr = decode unpack_tiles_body data addr /\
  unpack data addr = unpack_tiles data addr.
Proof.
  intros H.
  assert (decode unpack_body data addr = decode unpack_tiles_body data addr)
    as Heq.
  { unfold decode in *.
    destruct (declared_size (Py.slice_from data addr)) as [size|e];
      [|reflexivity].
    apply while_loop_agree with (Q := short_turn (Py.slice_from data addr));
      [|exact H].
    intros st Hst. apply (body_with_short tiles_distance unpack_distance).
    exact Hst. }
  split; [exact Heq|]. unfold unpack, unpack_tiles. now rewrite Heq.
Qed.

Lemma decoders_agree_without_backrefs_witness :
  decode unpack_body
    [0x00; 0x09; 0x01; 0x11; 0x22; 0x21; 0xAA; 0x41; 0xBB; 0xCC] 0
  = decode unpack_tiles_body
      [0x00; 0x09; 0x01; 0x11; 0x22; 0x21; 0xAA; 0x41; 0xBB; 0xCC] 0 /\
  unpack [0x00; 0x09; 0x01; 0x11; 0x22; 0x21; 0xAA; 0x41; 0xBB; 0xCC] 0
  = unpack_tiles
      [0x00; 0x09; 0x01; 0x11; 0x22; 0x21; 0xAA; 0x41; 0xBB; 0xCC] 0.
Proof.
  apply (decoders_agree_without_backrefs
           [0x00; 0x09; 0x01; 0x11; 0x22; 0x21; 0xAA; 0x41; 0xBB; 0xCC] 0).
  vm_compute. reflexivity.
Defined.

(** ** Blocks with no opcode *)

(** C10. A block whose two header bytes can be read and give a declared
    size of 0 or 1 is decoded, by either decoder, to the empty sequence:
    no turn of the loop begins and no exception is raised. *)
Theorem empty_block data addr size :
  declared_size (Py.slice_from data addr) = Ok size ->
  size = 0 \/ size = 1 ->
  (decode unpack_body data addr = ([], Finished initial) /\
   unpack data addr = Finished []) /\
  (decode unpack_tiles_body data addr = ([], Finished initial) /\
   unpack_tiles data addr = Finished []).
Proof.
  intros Hsize Hs. unfold unpack, unpack_tiles, decoded, decode.
  rewrite Hsize.
  assert (forall body,
            while_loop body (Z.to_nat size) (Py.slice_from data addr) size
              initial = ([], Finished initial)) as Hw.
  { intros body.
    destruct Hs as [-> | ->]; simpl; unfold loop_test; simpl; reflexivity. }
  rewrite !Hw. simpl. auto.
Qed.

Lemma empty_block_witness :
  (decode unpack_body [0xFF; 0x00; 0x01; 0x21; 0xAA] 1
     = ([], Finished initial) /\
   unpack [0xFF; 0x00; 0x01; 0x21; 0xAA] 1 = Finished []) /\
  (decode unpack_tiles_body [0xFF; 0x00; 0x01; 0x21; 0xAA] 1
     = ([], Finished initial) /\
   unpack_tiles [0xFF; 0x00; 0x01; 0x21; 0xAA] 1 = Finished []).
Proof.
  apply (empty_block [0xFF; 0x00; 0x01; 0x21; 0xAA] 1 1);
    [reflexivity | right; reflexivity].
Defined.

(** * Further properties of the decoders *)

(** ** Opcode families *)

Lemma below_128_cases (P : Z -> bool) :
  forallb P (map Z.of_nat (seq 0 128)) = true ->
  forall b, 0 <= b < 128 -> P b = true.
Proof.
  intros H b Hb. rewrite forallb_forall in H. apply H.
  rewrite <- (Z2Nat.id b) by lia. apply in_map, in_seq. lia.
Qed.

(** The bit tests of the source in terms of the value of the opcode. *)
Lemma opcode_bits b :
  0 <= b < 0x80 ->
  Z.land b 0x1F = b mod 32 /\
  negb (Z.land b (Z.shiftl 1 5) =? 0) = (32 <=? b mod 64) /\
  negb (Z.land b (Z.shiftl 1 6) =? 0) = (64 <=? b).
Proof.
  intros Hb.
  pose proof (below_128_cases
    (fun b => (Z.land b 0x1F =? b mod 32)
              && Bool.eqb (negb (Z.land b (Z.shiftl 1 5) =? 0)) (32 <=? b mod 64)
              && Bool.eqb (negb (Z.land b (Z.shiftl 1 6) =? 0)) (64 <=? b))
    ltac:(vm_compute; reflexivity) b Hb) as H.
  cbv beta in H. apply andb_true_iff in H as [H H3].
  apply andb_true_iff in H as [H1 H2].
  apply Z.eqb_eq in H1. apply Bool.eqb_prop in H2, H3. auto.
Qed.

(** ** The inner loops in closed form *)

Lemma skipn_nth_cons (l : list Z) : forall k,
  (k < length l)%nat -> skipn k l = nth k l 0 :: skipn (S k) l.
Proof.
  induction l as [|x l IH]; intros k Hk; simpl in Hk; [lia|].
  destruct k as [|k]; [reflexivity|].
  simpl. rewrite (IH k) by lia. reflexivity.
Qed.

Lemma taken_succ arr i n :
  0 <= i < Py.len arr ->
  taken arr i (Z.of_nat (S n))
  = nth (Z.to_nat i) arr 0 :: taken arr (i + 1) (Z.of_nat n).
Proof.
  intros Hi. unfold taken. rewrite !Nat2Z.id.
  rewrite skipn_nth_cons by (unfold Py.len in Hi; lia).
  replace (Z.to_nat (i + 1)) with (S (Z.to_nat i)) by lia. reflexivity.
Qed.

Lemma taken_zero arr i : taken arr i 0 = [].
Proof. reflexivity. Qed.

Lemma run_literal_ok n : forall arr i ir r,
  0 <= i + 1 -> i + Z.of_nat n < Py.len arr ->
  run_literal n arr i ir r
  = Ok (i + Z.of_nat n, ir + Z.of_nat n, r ++ taken arr (i + 1) (Z.of_nat n)).
Proof.
  induction n as [|n IH]; intros arr i ir r Hi Hn.
  - simpl. rewrite app_nil_r, !Z.add_0_r. reflexivity.
  - cbn [run_literal]. rewrite getitem_nonneg by lia. cbn [bind].
    rewrite IH by lia. rewrite taken_succ by lia.
    rewrite <- app_assoc. cbn [app]. repeat (f_equal; try lia).
Qed.

Lemma run_literal_raise n : forall arr i ir r,
  0 <= i + 1 -> (0 < n)%nat -> Py.len arr <= i + Z.of_nat n ->
  run_literal n arr i ir r = Raise IndexError.
Proof.
  induction n as [|n IH]; intros arr i ir r Hi Hpos Hn; [lia|].
  cbn [run_literal].
  destruct (Z_le_dec (Py.len arr) (i + 1)) as [Hout|Hin].
  - rewrite (proj2 (getitem_raise_iff arr (i + 1))) by lia. reflexivity.
  - rewrite getitem_nonneg by lia. cbn [bind]. apply IH; lia.
Qed.

Lemma interleave_cons z a l : interleave z (a :: l) = z :: a :: interleave z l.
Proof. reflexivity. Qed.

Lemma run_alternating_ok n : forall arr z i ir r,
  0 <= i + 1 -> i + Z.of_nat n < Py.len arr ->
  run_alternating n arr z i ir r
  = Ok (i + Z.of_nat n, ir + 2 * Z.of_nat n,
        r ++ interleave z (taken arr (i + 1) (Z.of_nat n))).
Proof.
  induction n as [|n IH]; intros arr z i ir r Hi Hn.
  - simpl. rewrite app_nil_r, !Z.add_0_r. reflexivity.
  - cbn [run_alternating]. rewrite getitem_nonneg by lia. cbn [bind].
    rewrite IH by lia. rewrite taken_succ by lia.
    rewrite interleave_cons, <- !app_assoc. cbn [app].
    repeat (f_equal; try lia).
Qed.

Lemma run_alternating_raise n : forall arr z i ir r,
  0 <= i + 1 -> (0 < n)%nat -> Py.len arr <= i + Z.of_nat n ->
  run_alternating n arr z i ir r = Raise IndexError.
Proof.
  induction n as [|n IH]; intros arr z i ir r Hi Hpos Hn; [lia|].
  cbn [run_alternating].
  destruct (Z_le_dec (Py.len arr) (i + 1)) as [Hout|Hin].
  - rewrite (proj2 (getitem_raise_iff arr (i + 1))) by lia. reflexivity.
  - rewrite getitem_nonneg by lia. cbn [bind]. apply IH; lia.
Qed.

Lemma repeat_snoc (s : Z) n : repeat s n ++ [s] = s :: repeat s n.
Proof. induction n as [|n IH]; simpl; [reflexivity|]. now rewrite IH. Qed.

Lemma run_single_eq n : forall s ir r,
  run_single n s ir r = (ir + Z.of_nat n, r ++ repeat s n).
Proof.
  induction n as [|n IH]; intros s ir r.
  - simpl. now rewrite app_nil_r, Z.add_0_r.
  - cbn [run_single]. rewrite IH, <- app_assoc. cbn [app repeat].
    f_equal. lia.
Qed.

Lemma run_pattern_eq n : forall s1 s2 ir r,
  run_pattern n s1 s2 ir r = (ir + 2 * Z.of_nat n, r ++ pairs s1 s2 n).
Proof.
  induction n as [|n IH]; intros s1 s2 ir r.
  - simpl. now rewrite app_nil_r, Z.add_0_r.
  - cbn [run_pattern]. rewrite IH, <- !app_assoc. cbn [app].
    f_equal. lia.
Qed.

(** ** The four run opcodes *)

Lemma body_with_short_opcode distance arr st b :
  Py.getitem arr (idx st) = Ok b -> b < 0x80 ->
  body_with distance arr st
  = (st' <- short_opcode arr b st ;;
     Ok (mkState (idx st' + 1) (idx_res st') (res st'))).
Proof.
  intros Hb Hlt. unfold body_with. rewrite Hb. cbn [bind].
  destruct (0x80 <=? b) eqn:E; [lia|reflexivity].
Qed.

(** The family of an opcode below 0x80, read off its value. *)
Lemma short_opcode_family arr b st :
  0 <= b < 0x80 ->
  short_opcode arr b st
  = if b <? 0x20 then
      '(i, ir, r) <-
        run_literal (Py.range (b + 1)) arr (idx st) (idx_res st) (res st) ;;
      Ok (mkState i ir r)
    else if b <? 0x40 then
      s <- Py.getitem arr (idx st + 1) ;;
      let '(ir, r) :=
        run_single (Py.range (b - 0x20 + 2)) s (idx_res st) (res st) in
      Ok (mkState (idx st + 1) ir r)
    else if b <? 0x60 then
      s1 <- Py.getitem arr (idx st + 1) ;;
      s2 <- Py.getitem arr (idx st + 2) ;;
      let '(ir, r) :=
        run_pattern (Py.range (b - 0x40 + 2)) s1 s2 (idx_res st) (res st) in
      Ok (mkState (idx st + 2) ir r)
    else
      z <- Py.getitem arr (idx st + 1) ;;
      '(i, ir, r) <-
        run_alternating (Py.range (b - 0x60 + 2)) arr z (idx st + 1)
          (idx_res st) (res st) ;;
      Ok (mkState i ir r).
Proof.
  intros Hb. destruct (opcode_bits b Hb) as (Hcnt & Hb5 & Hb6).
  unfold short_opcode. rewrite Hcnt, Hb5, Hb6. clear Hcnt Hb5 Hb6.
  destruct (b <? 0x20) eqn:E1; [|destruct (b <? 0x40) eqn:E2;
    [|destruct (b <? 0x60) eqn:E3]].
  - replace (32 <=? b mod 64) with false
      by (symmetry; apply Z.leb_gt; rewrite Z.mod_small; lia).
    replace (64 <=? b) with false by (symmetry; apply Z.leb_gt; lia).
    rewrite Z.mod_small by lia. reflexivity.
  - replace (32 <=? b mod 64) with true
      by (symmetry; apply Z.leb_le; rewrite Z.mod_small; lia).
    replace (64 <=? b) with false by (symmetry; apply Z.leb_gt; lia).
    replace (b mod 32) with (b - 32)
      by (apply Z.mod_unique with 1; lia).
    replace (b - 32 + 1 + 1) with (b - 32 + 2) by lia. reflexivity.
  - replace (32 <=? b mod 64) with false
      by (symmetry; apply Z.leb_gt;
          replace (b mod 64) with (b - 64)
            by (apply Z.mod_unique with 1; lia); lia).
    replace (64 <=? b) with true by (symmetry; apply Z.leb_le; lia).
    replace (b mod 32) with (b - 64)
      by (apply Z.mod_unique with 2; lia).
    replace (b - 64 + 1 + 1) with (b - 64 + 2) by lia. reflexivity.
  - replace (32 <=? b mod 64) with true
      by (symmetry; apply Z.leb_le;
          replace (b mod 64) with (b - 64)
            by (apply Z.mod_unique with 1; lia); lia).
    replace (64 <=? b) with true by (symmetry; apply Z.leb_le; lia).
    replace (b mod 32) with (b - 96)
      by (apply Z.mod_unique with 3; lia).
    replace (b - 96 + 1 + 1) with (b - 96 + 2) by lia. reflexivity.
Qed.

Lemma range_of_nat c : 0 <= c -> Z.of_nat (Py.range c) = c.
Proof. intros H. unfold Py.range. lia. Qed.

Lemma body_of_with d arr st :
  body_of d arr st = body_with (distance_of d) arr st.
Proof. destruct d; reflexivity. Qed.

Lemma unpack_by_cases d data addr :
  unpack_by d data addr
  = match d with
    | Unpack => unpack data addr
    | UnpackTiles => unpack_tiles data addr
    end.
Proof. destruct d; reflexivity. Qed.

Ltac short_family b :=
  rewrite body_of_with;
  rewrite !(body_with_short_opcode _ _ _ b) by (assumption || lia);
  rewrite short_opcode_family by lia.

(** X1. A literal opcode [b] (below 0x20) whose [b + 1] operand bytes lie
    inside the input appends exactly these bytes, in order, and leaves the
    cursor behind them. *)
Theorem literal_run_copies_input d arr st b :
  Py.getitem arr (idx st) = Ok b ->
  0 <= b < 0x20 ->
  0 <= idx st ->
  idx st + b + 1 < Py.len arr ->
  body_of d arr st
  = Ok (mkState (idx st + b + 2) (idx_res st + b + 1)
            (res st ++ taken arr (idx st + 1) (b + 1))).
Proof.
  intros Hb Hr Hi Hlen. short_family b.
  replace (b <? 0x20) with true by (symmetry; apply Z.ltb_lt; lia).
  rewrite run_literal_ok by (rewrite ?range_of_nat; lia).
  rewrite range_of_nat by lia. cbn [bind idx idx_res res].
  repeat (f_equal; try lia).
Qed.

Lemma literal_run_copies_input_witness :
  body_of UnpackTiles [0x00; 0x06; 0x03; 0x11; 0x22; 0x33; 0x44] initial
  = Ok (mkState (idx initial + 0x03 + 2) (idx_res initial + 0x03 + 1)
            (res initial
             ++ taken [0x00; 0x06; 0x03; 0x11; 0x22; 0x33; 0x44]
                  (idx initial + 1) (0x03 + 1))).
Proof.
  apply (literal_run_copies_input UnpackTiles
           [0x00; 0x06; 0x03; 0x11; 0x22; 0x33; 0x44] initial 0x03);
    [reflexivity | lia | simpl; lia | vm_compute; reflexivity].
Defined.

(** X2. A single-byte run opcode [b] (0x20 to 0x3F) with operand [s]
    appends [(b & 0x1F) + 2] copies of [s], between 2 and 33, and moves
    the cursor by two. *)
Theorem single_run_repeats d arr st b s :
  Py.getitem arr (idx st) = Ok b ->
  0x20 <= b < 0x40 ->
  Py.getitem arr (idx st + 1) = Ok s ->
  body_of d arr st
  = Ok (mkState (idx st + 2) (idx_res st + (b - 0x20 + 2))
            (res st ++ repeat s (Z.to_nat (b - 0x20 + 2)))).
Proof.
  intros Hb Hr Hs. short_family b.
  replace (b <? 0x20) with false by (symmetry; apply Z.ltb_ge; lia).
  replace (b <? 0x40) with true by (symmetry; apply Z.ltb_lt; lia).
  rewrite Hs. cbn [bind]. rewrite run_single_eq.
  rewrite range_of_nat by lia. cbn [bind idx idx_res res].
  repeat (f_equal; try lia).
Qed.

Lemma single_run_repeats_witness :
  body_of UnpackTiles [0x00; 0x03; 0x3F; 0xAA] initial
  = Ok (mkState (idx initial + 2) (idx_res initial + (0x3F - 0x20 + 2))
            (res initial ++ repeat 0xAA (Z.to_nat (0x3F - 0x20 + 2)))).
Proof.
  apply (single_run_repeats UnpackTiles [0x00; 0x03; 0x3F; 0xAA] initial 0x3F 0xAA);
    [reflexivity | lia | reflexivity].
Defined.

(** X3. A pattern opcode [b] (0x40 to 0x5F) with operands [s1 s2] appends
    [(b & 0x1F) + 2] copies of the pair and moves the cursor by three. *)
Theorem pattern_run_repeats d arr st b s1 s2 :
  Py.getitem arr (idx st) = Ok b ->
  0x40 <= b < 0x60 ->
  Py.getitem arr (idx st + 1) = Ok s1 ->
  Py.getitem arr (idx st + 2) = Ok s2 ->
  body_of d arr st
  = Ok (mkState (idx st + 3) (idx_res st + 2 * (b - 0x40 + 2))
            (res st ++ pairs s1 s2 (Z.to_nat (b - 0x40 + 2)))).
Proof.
  intros Hb Hr Hs1 Hs2. short_family b.
  replace (b <? 0x20) with false by (symmetry; apply Z.ltb_ge; lia).
  replace (b <? 0x40) with false by (symmetry; apply Z.ltb_ge; lia).
  replace (b <? 0x60) with true by (symmetry; apply Z.ltb_lt; lia).
  rewrite Hs1, Hs2. cbn [bind]. rewrite run_pattern_eq.
  rewrite range_of_nat by lia. cbn [bind idx idx_res res].
  repeat (f_equal; try lia).
Qed.

Lemma pattern_run_repeats_witness :
  body_of UnpackTiles [0x00; 0x04; 0x40; 0xBB; 0xCC] initial
  = Ok (mkState (idx initial + 3) (idx_res initial + 2 * (0x40 - 0x40 + 2))
            (res initial ++ pairs 0xBB 0xCC (Z.to_nat (0x40 - 0x40 + 2)))).
Proof.
  apply (pattern_run_repeats UnpackTiles [0x00; 0x04; 0x40; 0xBB; 0xCC] initial
           0x40 0xBB 0xCC); [reflexivity | lia | reflexivity | reflexivity].
Defined.

(** X4. An alternating opcode [b] (0x60 to 0x7F) with fixed byte [z] reads
    [(b & 0x1F) + 2] further input bytes and appends [z] before each of
    them; the cursor is left behind the last byte read. *)
Theorem alternating_run_interleaves d arr st b z :
  Py.getitem arr (idx st) = Ok b ->
  0x60 <= b < 0x80 ->
  0 <= idx st ->
  Py.getitem arr (idx st + 1) = Ok z ->
  idx st + (b - 0x60 + 3) < Py.len arr ->
  body_of d arr st
  = Ok (mkState (idx st + (b - 0x60) + 4)
            (idx_res st + 2 * (b - 0x60 + 2))
            (res st ++ interleave z (taken arr (idx st + 2) (b - 0x60 + 2)))).
Proof.
  intros Hb Hr Hi Hz Hlen. short_family b.
  replace (b <? 0x20) with false by (symmetry; apply Z.ltb_ge; lia).
  replace (b <? 0x40) with false by (symmetry; apply Z.ltb_ge; lia).
  replace (b <? 0x60) with false by (symmetry; apply Z.ltb_ge; lia).
  rewrite Hz. cbn [bind].
  rewrite run_alternating_ok by (rewrite ?range_of_nat; lia).
  rewrite range_of_nat by lia. cbn [bind idx idx_res res].
  replace (idx st + 1 + 1) with (idx st + 2) by lia.
  repeat (f_equal; try lia).
Qed.

Lemma alternating_run_interleaves_witness :
  body_of UnpackTiles [0x00; 0x06; 0x60; 0xFF; 0x01; 0x02] initial
  = Ok (mkState (idx initial + (0x60 - 0x60) + 4)
            (idx_res initial + 2 * (0x60 - 0x60 + 2))
            (res initial
             ++ interleave 0xFF
                  (taken [0x00; 0x06; 0x60; 0xFF; 0x01; 0x02]
                     (idx initial + 2) (0x60 - 0x60 + 2)))).
Proof.
  apply (alternating_run_interleaves UnpackTiles
           [0x00; 0x06; 0x60; 0xFF; 0x01; 0x02] initial 0x60 0xFF);
    [reflexivity | lia | simpl; lia | reflexivity | vm_compute; reflexivity].
Defined.

(** ** Truncated operands *)

Lemma short_opcode_outcome arr b st :
  0 <= b < 0x80 -> 0 <= idx st ->
  (idx st + operands b < Py.len arr ->
   exists st', short_opcode arr b st = Ok st' /\
               idx st' = idx st + operands b) /\
  (Py.len arr <= idx st + operands b ->
   short_opcode arr b st = Raise IndexError).
Proof.
  intros Hb Hi. rewrite short_opcode_family by assumption. unfold operands.
  destruct (b <? 0x20) eqn:E1; [|destruct (b <? 0x40) eqn:E2;
    [|destruct (b <? 0x60) eqn:E3]]; split; intros Hlen.
  - rewrite run_literal_ok by (rewrite ?range_of_nat; lia).
    rewrite range_of_nat by lia. cbn [bind]. eexists. split; [reflexivity|].
    simpl. lia.
  - rewrite run_literal_raise; [reflexivity|lia|unfold Py.range; lia|].
    rewrite range_of_nat by lia. lia.
  - rewrite getitem_nonneg by lia. cbn [bind].
    destruct (run_single _ _ _ _) as [ir r]. eexists. split; [reflexivity|].
    reflexivity.
  - rewrite (proj2 (getitem_raise_iff arr (idx st + 1))) by lia. reflexivity.
  - rewrite !getitem_nonneg by lia. cbn [bind].
    destruct (run_pattern _ _ _ _ _) as [ir r]. eexists.
    split; reflexivity.
  - destruct (Z_le_dec (Py.len arr) (idx st + 1)) as [Hout|Hin].
    + rewrite (proj2 (getitem_raise_iff arr (idx st + 1))) by lia.
      reflexivity.
    + rewrite (getitem_nonneg arr (idx st + 1)) by lia. cbn [bind].
      rewrite (proj2 (getitem_raise_iff arr (idx st + 2))) by lia.
      reflexivity.
  - rewrite getitem_nonneg by lia. cbn [bind].
    rewrite run_alternating_ok by (rewrite ?range_of_nat; lia).
    rewrite range_of_nat by lia. cbn [bind]. eexists.
    split; [reflexivity|]. simpl. lia.
  - destruct (Z_le_dec (Py.len arr) (idx st + 1)) as [Hout|Hin].
    + rewrite (proj2 (getitem_raise_iff arr (idx st + 1))) by lia.
      reflexivity.
    + rewrite (getitem_nonneg arr (idx st + 1)) by lia. cbn [bind].
      rewrite run_alternating_raise; [reflexivity|lia|unfold Py.range; lia|].
      rewrite range_of_nat by lia. lia.
Qed.

Lemma body_with_short_outcome distance arr st b :
  Py.getitem arr (idx st) = Ok b ->
  0 <= b < 0x80 -> 0 <= idx st ->
  (body_with distance arr st = Raise IndexError
   <-> Py.len arr <= idx st + operands b) /\
  (forall st', body_with distance arr st = Ok st' ->
               idx st' = idx st + operands b + 1).
Proof.
  intros Hb Hr Hi. rewrite (body_with_short_opcode _ _ _ b) by (assumption || lia).
  destruct (short_opcode_outcome arr b st Hr Hi) as [Hok Hraise].
  destruct (Z_lt_dec (idx st + operands b) (Py.len arr)) as [Hin|Hout].
  - destruct (Hok Hin) as (st1 & -> & Hidx). cbn [bind]. split.
    + split; [discriminate|lia].
    + intros st' H. injection H as <-. simpl. lia.
  - rewrite Hraise by lia. cbn [bind]. split.
    + split; [lia|reflexivity].
    + discriminate.
Qed.

(** X5. An opcode [b] below 0x80 raises [IndexError] exactly when the last
    of its [operands b] operand bytes lies beyond the input; otherwise the
    turn succeeds and moves the cursor by [operands b + 1].  A truncated
    run is never decoded in part. *)
Theorem short_opcode_raises_iff_truncated d arr st b :
  Py.getitem arr (idx st) = Ok b ->
  0 <= b < 0x80 ->
  0 <= idx st ->
  (body_of d arr st = Raise IndexError
   <-> Py.len arr <= idx st + operands b) /\
  (forall st', body_of d arr st = Ok st' ->
               idx st' = idx st + operands b + 1).
Proof.
  intros Hb Hr Hi. rewrite body_of_with.
  apply body_with_short_outcome; assumption.
Qed.

Lemma short_opcode_raises_iff_truncated_witness :
  (body_of Unpack [0x00; 0x06; 0x03; 0x11; 0x22] initial = Raise IndexError
   <-> Py.len [0x00; 0x06; 0x03; 0x11; 0x22] <= idx initial + operands 0x03) /\
  (forall st', body_of Unpack [0x00; 0x06; 0x03; 0x11; 0x22] initial = Ok st' ->
               idx st' = idx initial + operands 0x03 + 1).
Proof.
  apply (short_opcode_raises_iff_truncated Unpack
           [0x00; 0x06; 0x03; 0x11; 0x22] initial 0x03);
    [reflexivity | lia | simpl; lia].
Defined.

(** ** What one turn appends *)

Lemma getitem_In l i v : Py.getitem l i = Ok v -> In v l.
Proof.
  unfold Py.getitem, Py.len. intros H.
  destruct ((0 <=? i) && (i <? Z.of_nat (length l))) eqn:E1.
  - injection H as <-. apply nth_In. lia.
  - destruct ((- Z.of_nat (length l) <=? i) && (i <? 0)) eqn:E2;
      [|discriminate].
    injection H as <-. apply nth_In. lia.
Qed.

Lemma land_31_bound a : 0 <= Z.land a 0x1F <= 31.
Proof.
  change (Z.land a 0x1F) with (Z.land a (Z.ones 5)).
  rewrite Z.land_ones by lia. change (2 ^ 5) with 32.
  pose proof (Z.mod_pos_bound a 32 ltac:(lia)). lia.
Qed.

Lemma copy_window_appends n : forall w ir r ir' r',
  copy_window n w ir r = Ok (ir', r') ->
  exists t, r' = r ++ t /\ length t = n /\ (forall x, In x t -> In x r).
Proof.
  induction n as [|n IH]; intros w ir r ir' r' H; simpl in H.
  - injection H as _ <-. exists []. rewrite app_nil_r.
    repeat split. intros x [].
  - destruct (Py.getitem r w) as [s|e] eqn:Hs; simpl in H; [|discriminate].
    apply IH in H. destruct H as (t & -> & Hlen & Hin).
    exists (s :: t). rewrite <- app_assoc. simpl. repeat split; [lia|].
    intros x [<-|Hx]; [eapply getitem_In; eassumption|].
    apply Hin in Hx. apply in_app_or in Hx as [Hx|[<-|[]]]; [assumption|].
    eapply getitem_In; eassumption.
Qed.

Lemma run_literal_appends n : forall arr i ir r i' ir' r',
  run_literal n arr i ir r = Ok (i', ir', r') ->
  exists t, r' = r ++ t /\ length t = n /\ (forall x, In x t -> In x arr).
Proof.
  induction n as [|n IH]; intros arr i ir r i' ir' r' H; simpl in H.
  - injection H as _ _ <-. exists []. rewrite app_nil_r.
    repeat split. intros x [].
  - destruct (Py.getitem arr (i + 1)) as [s|e] eqn:Hs; simpl in H;
      [|discriminate].
    apply IH in H. destruct H as (t & -> & Hlen & Hin).
    exists (s :: t). rewrite <- app_assoc. simpl. repeat split; [lia|].
    intros x [<-|Hx]; [eapply getitem_In; eassumption|auto].
Qed.

Lemma run_alternating_appends n : forall arr z i ir r i' ir' r',
  run_alternating n arr z i ir r = Ok (i', ir', r') ->
  exists t, r' = r ++ t /\ length t = (2 * n)%nat /\
            (forall x, In x t -> x = z \/ In x arr).
Proof.
  induction n as [|n IH]; intros arr z i ir r i' ir' r' H; simpl in H.
  - injection H as _ _ <-. exists []. rewrite app_nil_r.
    repeat split. intros x [].
  - destruct (Py.getitem arr (i + 1)) as [s|e] eqn:Hs; simpl in H;
      [|discriminate].
    apply IH in H. destruct H as (t & -> & Hlen & Hin).
    exists (z :: s :: t). rewrite <- !app_assoc. simpl.
    repeat split; [lia|].
    intros x [<-|[<-|Hx]]; [now left| |auto].
    right. eapply getitem_In; eassumption.
Qed.

Lemma in_repeat (s x : Z) n : In x (repeat s n) -> x = s.
Proof. intros H. eapply repeat_spec; eassumption. Qed.

Lemma pairs_length s1 s2 n : length (pairs s1 s2 n) = (2 * n)%nat.
Proof.
  unfold pairs. induction n as [|n IH]; simpl; [reflexivity|].
  simpl in IH. rewrite IH. lia.
Qed.

Lemma in_pairs s1 s2 n x : In x (pairs s1 s2 n) -> x = s1 \/ x = s2.
Proof.
  unfold pairs. induction n as [|n IH]; simpl; [intros []|].
  intros [<-|[<-|H]]; auto.
Qed.

(** A short opcode appends between 1 and 66 bytes, all of them read from
    the input, and reads between 1 and 34 operand bytes. *)
Lemma short_opcode_progress arr b st st' :
  short_opcode arr b st = Ok st' ->
  exists t,
    res st' = res st ++ t /\
    1 <= Py.len t <= 66 /\
    1 <= idx st' - idx st <= 34 /\
    Py.len t <= 22 * (idx st' - idx st + 1) /\
    (forall x, In x t -> In x arr).
Proof.
  unfold short_opcode. intros H.
  pose proof (land_31_bound b) as Hc.
  destruct (negb (Z.land b (Z.shiftl 1 5) =? 0)),
    (negb (Z.land b (Z.shiftl 1 6) =? 0)).
  - destruct (Py.getitem arr (idx st + 1)) as [z|e] eqn:Hz; simpl in H;
      [|discriminate].
    destruct (run_alternating _ arr z _ _ _) as [[[i ir] r]|e] eqn:E;
      simpl in H; [|discriminate].
    injection H as <-. cbn [idx idx_res res].
    pose proof (run_alternating_counts _ _ _ _ _ _ _ _ _ E) as (Hi & _ & _).
    apply run_alternating_appends in E. destruct E as (t & -> & Hlen & Hin).
    exists t. rewrite range_succ in Hi by lia.
    unfold Py.len, Py.range in *. repeat split; try lia.
    intros x Hx. destruct (Hin x Hx) as [->|]; [|assumption].
    eapply getitem_In; eassumption.
  - destruct (Py.getitem arr (idx st + 1)) as [s|e] eqn:Hs; simpl in H;
      [|discriminate].
    rewrite run_single_eq in H. injection H as <-. cbn [idx idx_res res].
    eexists. split; [reflexivity|]. unfold Py.len. rewrite repeat_length.
    unfold Py.range. repeat split; try lia.
    intros x Hx. apply in_repeat in Hx as ->. eapply getitem_In; eassumption.
  - destruct (Py.getitem arr (idx st + 1)) as [s1|e] eqn:Hs1; simpl in H;
      [|discriminate].
    destruct (Py.getitem arr (idx st + 2)) as [s2|e] eqn:Hs2; simpl in H;
      [|discriminate].
    rewrite run_pattern_eq in H. injection H as <-. cbn [idx idx_res res].
    eexists. split; [reflexivity|]. unfold Py.len. rewrite pairs_length.
    unfold Py.range. repeat split; try lia.
    intros x Hx. apply in_pairs in Hx as [->| ->];
      eapply getitem_In; eassumption.
  - destruct (run_literal _ arr _ _ _) as [[[i ir] r]|e] eqn:E;
      simpl in H; [|discriminate].
    injection H as <-. cbn [idx idx_res res].
    pose proof (run_literal_counts _ _ _ _ _ _ _ _ E) as (Hi & _ & _).
    apply run_literal_appends in E. destruct E as (t & -> & Hlen & Hin).
    exists t. rewrite range_succ in Hi by lia.
    unfold Py.len, Py.range in *. repeat split; try lia. assumption.
Qed.

Lemma body_with_progress distance arr st st' :
  body_with distance arr st = Ok st' ->
  exists t,
    res st' = res st ++ t /\
    1 <= Py.len t <= 66 /\
    2 <= idx st' - idx st <= 35 /\
    Py.len t <= 22 * (idx st' - idx st) /\
    (forall x, In x t -> In x arr \/ In x (res st)).
Proof.
  unfold body_with. intros H.
  destruct (Py.getitem arr (idx st)) as [b|e]; simpl in H; [|discriminate].
  destruct (0x80 <=? b).
  - destruct (Py.getitem arr (idx st + 1)) as [s|e]; simpl in H;
      [|discriminate].
    destruct (copy_window _ _ _ _) as [[ir r]|e] eqn:E;
      simpl in H; [|discriminate].
    injection H as <-. cbn [idx idx_res res].
    apply copy_window_appends in E. destruct E as (t & -> & Hlen & Hin).
    exists t. pose proof (land_31_bound (Z.shiftr b 2)) as Hc.
    unfold Py.len, Py.range in *. repeat split; try lia. auto.
  - destruct (short_opcode arr b st) as [st1|e] eqn:E;
      simpl in H; [|discriminate].
    injection H as <-. cbn [idx idx_res res].
    apply short_opcode_progress in E.
    destruct E as (t & Hres & Hlen & Hidx & Hratio & Hin).
    exists t. repeat split; try assumption; try lia. auto.
Qed.

(** X6. The output is append-only: a turn that succeeds leaves the old
    output as a prefix of the new one, appends between 1 and 66 bytes and
    moves the cursor forward by between 2 and 35. *)
Theorem turn_appends d arr st st' :
  body_of d arr st = Ok st' ->
  exists t,
    res st' = res st ++ t /\
    1 <= Py.len t <= 66 /\
    2 <= idx st' - idx st <= 35.
Proof.
  rewrite body_of_with. intros H.
  destruct (body_with_progress _ _ _ _ H) as (t & Hres & Hlen & Hidx & _).
  exists t. auto.
Qed.

Lemma turn_appends_witness :
  exists t,
    res (mkState 5 6 [0xBB; 0xCC; 0xBB; 0xCC; 0xBB; 0xCC])
      = res initial ++ t /\
    1 <= Py.len t <= 66 /\
    2 <= idx (mkState 5 6 [0xBB; 0xCC; 0xBB; 0xCC; 0xBB; 0xCC])
         - idx initial <= 35.
Proof.
  apply (turn_appends Unpack [0x00; 0x04; 0x41; 0xBB; 0xCC] initial
           (mkState 5 6 [0xBB; 0xCC; 0xBB; 0xCC; 0xBB; 0xCC])).
  reflexivity.
Defined.

(** ** Back-references within the output *)

Lemma body_with_backref_copies distance arr st b s :
  counts_output st ->
  Py.getitem arr (idx st) = Ok b -> 0x80 <= b ->
  Py.getitem arr (idx st + 1) = Ok s ->
  1 <= distance b s <= Py.len (res st) ->
  exists t,
    body_with distance arr st
    = Ok (mkState (idx st + 2)
            (idx_res st + (Z.land (Z.shiftr b 2) 0x1F + 2)) (res st ++ t)) /\
    Py.len t = Z.land (Z.shiftr b 2) 0x1F + 2 /\
    forall k, 0 <= k < Py.len t ->
      nth (Z.to_nat (Py.len (res st) + k)) (res st ++ t) 0
      = nth (Z.to_nat (Py.len (res st) + k - distance b s)) (res st ++ t) 0.
Proof.
  unfold counts_output. intros Hc Hb Hge Hs Hd.
  pose proof (land_31_bound (Z.shiftr b 2)) as Hcnt.
  unfold body_with. rewrite Hb. cbn [bind].
  destruct (0x80 <=? b) eqn:E; [|lia]. rewrite Hs. cbn [bind].
  rewrite Hc.
  destruct (copy_window_ok (Py.range (Z.land (Z.shiftr b 2) 0x1F + 1 + 1))
              (Py.len (res st) - distance b s) (Py.len (res st)) (res st)
              ltac:(lia)) as (ir & r & Hcopy).
  rewrite Hcopy. cbn [bind idx idx_res res].
  pose proof (copy_window_counts _ _ _ _ _ _ Hcopy) as [Hir _].
  apply copy_window_reads_output in Hcopy; [|lia].
  destruct Hcopy as (t & -> & Hlen & Hnth).
  exists t. unfold Py.range in *. split; [|split].
  - repeat (f_equal; try lia).
  - unfold Py.len. lia.
  - intros k Hk. unfold Py.len in *.
    rewrite app_nth2 by lia.
    replace (Z.to_nat (Z.of_nat (length (res st)) + k) - length (res st))%nat
      with (Z.to_nat k) by lia.
    rewrite Hnth by lia. f_equal. lia.
Qed.

(** X7. A back-reference whose distance does not exceed the output length
    appends [((b >> 2) & 0x1F) + 2] bytes, between 2 and 33, and each byte
    appended equals the byte [distance] positions before it in the new
    output, in both decoders (each with its own distance). *)
Theorem backref_copies_at_distance d arr st b s :
  counts_output st ->
  Py.getitem arr (idx st) = Ok b -> 0x80 <= b ->
  Py.getitem arr (idx st + 1) = Ok s ->
  distance_of d b s <= Py.len (res st) ->
  exists t,
    body_of d arr st
    = Ok (mkState (idx st + 2)
            (idx_res st + (Z.land (Z.shiftr b 2) 0x1F + 2)) (res st ++ t)) /\
    Py.len t = Z.land (Z.shiftr b 2) 0x1F + 2 /\
    2 <= Py.len t <= 33 /\
    forall k, 0 <= k < Py.len t ->
      nth (Z.to_nat (Py.len (res st) + k)) (res st ++ t) 0
      = nth (Z.to_nat (Py.len (res st) + k - distance_of d b s))
          (res st ++ t) 0.
Proof.
  intros Hc Hb Hge Hs Hd. rewrite body_of_with.
  assert (1 <= distance_of d b s) as Hpos
    by (destruct d; [apply unpack_distance_pos|apply tiles_distance_pos]).
  destruct (body_with_backref_copies (distance_of d) arr st b s)
    as (t & Hbody & Hlen & Hnth); try assumption; [lia|].
  exists t. pose proof (land_31_bound (Z.shiftr b 2)).
  repeat split; try assumption; lia.
Qed.

Lemma backref_copies_at_distance_witness :
  exists t,
    body_of UnpackTiles [0x00; 0x07; 0x02; 0x01; 0x02; 0x03; 0x90; 0x02]
      (mkState 6 3 [0x01; 0x02; 0x03])
    = Ok (mkState (6 + 2) (3 + (Z.land (Z.shiftr 0x90 2) 0x1F + 2))
            ([0x01; 0x02; 0x03] ++ t)) /\
    Py.len t = Z.land (Z.shiftr 0x90 2) 0x1F + 2 /\
    2 <= Py.len t <= 33 /\
    forall k, 0 <= k < Py.len t ->
      nth (Z.to_nat (Py.len [0x01; 0x02; 0x03] + k))
        ([0x01; 0x02; 0x03] ++ t) 0
      = nth (Z.to_nat (Py.len [0x01; 0x02; 0x03] + k
                       - distance_of UnpackTiles 0x90 0x02))
          ([0x01; 0x02; 0x03] ++ t) 0.
Proof.
  apply (backref_copies_at_distance UnpackTiles
           [0x00; 0x07; 0x02; 0x01; 0x02; 0x03; 0x90; 0x02]
           (mkState 6 3 [0x01; 0x02; 0x03]) 0x90 0x02);
    [reflexivity | reflexivity | lia | reflexivity | vm_compute; discriminate].
Defined.

(** ** Where the cursor can be *)

Lemma getitem_ok_below l i v :
  Py.getitem l i = Ok v -> 0 <= i -> i < Py.len l.
Proof.
  intros H Hi. assert (- Py.len l <= i < Py.len l) as Hr
    by (apply getitem_ok_iff; eauto). lia.
Qed.

Lemma run_literal_last n : forall arr i ir r i' ir' r',
  run_literal n arr i ir r = Ok (i', ir', r') ->
  0 <= i + 1 -> (0 < n)%nat -> i' < Py.len arr.
Proof.
  induction n as [|n IH]; intros arr i ir r i' ir' r' H Hi Hn; [lia|].
  cbn [run_literal] in H.
  destruct (Py.getitem arr (i + 1)) as [s|e] eqn:Hs; simpl in H;
    [|discriminate].
  apply getitem_ok_below in Hs; [|lia].
  destruct n as [|n].
  - simpl in H. injection H as <- _ _. assumption.
  - eapply IH; [eassumption|lia|lia].
Qed.

Lemma run_alternating_last n : forall arr z i ir r i' ir' r',
  run_alternating n arr z i ir r = Ok (i', ir', r') ->
  0 <= i + 1 -> (0 < n)%nat -> i' < Py.len arr.
Proof.
  induction n as [|n IH]; intros arr z i ir r i' ir' r' H Hi Hn; [lia|].
  cbn [run_alternating] in H.
  destruct (Py.getitem arr (i + 1)) as [s|e] eqn:Hs; simpl in H;
    [|discriminate].
  apply getitem_ok_below in Hs; [|lia].
  destruct n as [|n].
  - simpl in H. injection H as <- _ _. assumption.
  - eapply IH; [eassumption|lia|lia].
Qed.

(** After a turn that succeeds the cursor is at most the length of the
    input: every operand was read inside it. *)
Lemma body_with_within distance arr st st' :
  body_with distance arr st = Ok st' -> 0 <= idx st ->
  idx st' <= Py.len arr.
Proof.
  unfold body_with. intros H Hi.
  destruct (Py.getitem arr (idx st)) as [b|e]; simpl in H; [|discriminate].
  destruct (0x80 <=? b).
  - destruct (Py.getitem arr (idx st + 1)) as [s|e] eqn:Hs; simpl in H;
      [|discriminate].
    destruct (copy_window _ _ _ _) as [[ir r]|e]; simpl in H; [|discriminate].
    injection H as <-. cbn [idx]. apply getitem_ok_below in Hs; lia.
  - destruct (short_opcode arr b st) as [st1|e] eqn:E; simpl in H;
      [|discriminate].
    injection H as <-. cbn [idx].
    enough (idx st1 < Py.len arr) by lia.
    unfold short_opcode in E. pose proof (land_31_bound b) as Hc.
    destruct (negb (Z.land b (Z.shiftl 1 5) =? 0)),
      (negb (Z.land b (Z.shiftl 1 6) =? 0)).
    + destruct (Py.getitem arr (idx st + 1)) as [z|e]; simpl in E;
        [|discriminate].
      destruct (run_alternating _ arr z _ _ _) as [[[i ir] r]|e] eqn:E';
        simpl in E; [|discriminate].
      injection E as <-. cbn [idx].
      eapply run_alternating_last; [eassumption|lia|unfold Py.range; lia].
    + destruct (Py.getitem arr (idx st + 1)) as [s|e] eqn:Hs; simpl in E;
        [|discriminate].
      destruct (run_single _ s _ _) as [ir r]. injection E as <-. cbn [idx].
      apply getitem_ok_below in Hs; lia.
    + destruct (Py.getitem arr (idx st + 1)) as [s1|e]; simpl in E;
        [|discriminate].
      destruct (Py.getitem arr (idx st + 2)) as [s2|e] eqn:Hs2; simpl in E;
        [|discriminate].
      destruct (run_pattern _ s1 s2 _ _) as [ir r]. injection E as <-.
      cbn [idx]. apply getitem_ok_below in Hs2; lia.
    + destruct (run_literal _ arr _ _ _) as [[[i ir] r]|e] eqn:E';
        simpl in E; [|discriminate].
      injection E as <-. cbn [idx].
      eapply run_literal_last; [eassumption|lia|unfold Py.range; lia].
Qed.

(** An invariant may rely on the loop test: it holds, with the test, when
    each turn begins, and with the negated test when the loop is left. *)
Lemma while_loop_guarded_invariant
  (body : list Z -> state -> result state) arr size (P : state -> Prop) :
  (forall st st', loop_test arr size st = true ->
                  body arr st = Ok st' -> P st -> P st') ->
  forall fuel st,
    P st ->
    Forall (fun s => P s /\ loop_test arr size s = true)
      (fst (while_loop body fuel arr size st)) /\
    at_exit (fun s => P s /\ loop_test arr size s = false)
      (snd (while_loop body fuel arr size st)).
Proof.
  intros Hkeep. induction fuel as [|fuel IH]; intros st HP; simpl;
    destruct (loop_test arr size st) eqn:Ht; simpl; auto.
  destruct (body arr st) as [st'|e] eqn:Hb; simpl.
  - destruct (IH st' (Hkeep _ _ Ht Hb HP)) as [H1 H2].
    destruct (while_loop body fuel arr size st'). simpl in *. auto.
  - auto.
Qed.

Lemma declared_size_len arr size :
  declared_size arr = Ok size -> 2 <= Py.len arr.
Proof.
  unfold declared_size. intros H.
  destruct (Py.getitem arr 0) as [a0|e]; simpl in H; [|discriminate].
  destruct (Py.getitem arr 1) as [a1|e] eqn:H1; simpl in H; [|discriminate].
  apply getitem_ok_below in H1; lia.
Qed.

Lemma declared_size_raise arr :
  Py.len arr < 2 -> declared_size arr = Raise IndexError.
Proof.
  intros H. pose proof (len_nonneg arr) as Hl. unfold declared_size.
  destruct (Py.getitem arr 0) as [a0|[]] eqn:Ha; simpl; [|reflexivity].
  apply getitem_ok_below in Ha; [|lia].
  rewrite (proj2 (getitem_raise_iff arr 1)) by lia. reflexivity.
Qed.

Lemma body_with_well_placed distance arr size st st' :
  loop_test arr size st = true ->
  body_with distance arr st = Ok st' ->
  well_placed arr size st -> well_placed arr size st'.
Proof.
  unfold well_placed, loop_test. intros Ht Hb (Hidx & Hmax & Hlen & Hin).
  pose proof (body_with_within _ _ _ _ Hb ltac:(lia)) as Hw.
  destruct (body_with_progress _ _ _ _ Hb) as (t & Hres & Ht1 & Ht2 & Ht3 & Ht4).
  rewrite Hres, len_app. repeat split; try lia.
  intros x Hx. apply in_app_or in Hx as [Hx|Hx]; [auto|].
  destruct (Ht4 x Hx); auto.
Qed.

Lemma initial_well_placed arr size :
  declared_size arr = Ok size -> well_placed arr size initial.
Proof.
  intros H. apply declared_size_len in H. unfold well_placed, initial.
  cbn [idx res]. split; [lia|]. split; [lia|]. split; [cbv; discriminate|].
  intros x [].
Qed.

Lemma decode_well_placed d data addr size :
  declared_size (Py.slice_from data addr) = Ok size ->
  Forall (fun s => well_placed (Py.slice_from data addr) size s /\
                   loop_test (Py.slice_from data addr) size s = true)
    (fst (decode (body_of d) data addr)) /\
  at_exit (fun s => well_placed (Py.slice_from data addr) size s /\
                    loop_test (Py.slice_from data addr) size s = false)
    (snd (decode (body_of d) data addr)).
Proof.
  intros Hsize. unfold decode. rewrite Hsize.
  apply while_loop_guarded_invariant.
  - intros st st' Ht Hb. rewrite body_of_with in Hb.
    eapply body_with_well_placed; eassumption.
  - apply initial_well_placed. assumption.
Qed.

Lemma decode_finished_size d data addr turns st :
  decode (body_of d) data addr = (turns, Finished st) ->
  exists size, declared_size (Py.slice_from data addr) = Ok size.
Proof.
  unfold decode. destruct (declared_size (Py.slice_from data addr)) as [size|e].
  - eauto.
  - discriminate.
Qed.

Lemma unpack_by_terminates d data addr : terminated (unpack_by d data addr).
Proof.
  rewrite unpack_by_cases. destruct d; apply decode_terminates.
Qed.

(** X8. When a decoder leaves its loop normally the cursor is beyond the
    declared size, by at most 35, and not beyond the end of the input: the
    second half of the loop test, [idx <= len(arr)], never ends the loop.
    Every turn began with the cursor between 2 and the declared size. *)
Theorem finished_cursor_past_size d data addr size turns st :
  declared_size (Py.slice_from data addr) = Ok size ->
  decode (body_of d) data addr = (turns, Finished st) ->
  size < idx st <= Py.len (Py.slice_from data addr) /\
  idx st <= Z.max 2 (size + 35) /\
  Forall (fun s => 2 <= idx s <= size) turns.
Proof.
  intros Hsize Hdec.
  destruct (decode_well_placed d data addr size Hsize) as [Hturns Hexit].
  rewrite Hdec in Hturns, Hexit. simpl in Hturns, Hexit.
  destruct Hexit as [(Hidx & Hmax & _) Htest].
  unfold loop_test in Htest. repeat split; try lia.
  eapply Forall_impl; [|exact Hturns].
  intros s [(Hs & _) Hts]. unfold loop_test in Hts. lia.
Qed.

Lemma finished_cursor_past_size_witness :
  3 < idx (mkState 4 3 [0xAA; 0xAA; 0xAA])
    <= Py.len (Py.slice_from [0x00; 0x03; 0x21; 0xAA] 0) /\
  idx (mkState 4 3 [0xAA; 0xAA; 0xAA]) <= Z.max 2 (3 + 35) /\
  Forall (fun s => 2 <= idx s <= 3) [initial].
Proof.
  apply (finished_cursor_past_size UnpackTiles [0x00; 0x03; 0x21; 0xAA] 0 3
           [initial] (mkState 4 3 [0xAA; 0xAA; 0xAA])); reflexivity.
Defined.

(** X9. A block whose declared size is not less than the number of bytes
    available from its address is never decoded: both decoders raise
    [IndexError], whatever the opcodes are. *)
Theorem declared_size_beyond_input_raises d data addr size :
  declared_size (Py.slice_from data addr) = Ok size ->
  Py.len (Py.slice_from data addr) <= size ->
  unpack_by d data addr = Raised IndexError.
Proof.
  intros Hsize Hlen. pose proof (unpack_by_terminates d data addr) as Hterm.
  unfold unpack_by, decoded in *.
  destruct (decode (body_of d) data addr) as [turns out] eqn:Hdec.
  simpl in *. destruct out as [st|[]|]; [exfalso|reflexivity|contradiction].
  destruct (decode_well_placed d data addr size Hsize) as [_ Hexit].
  rewrite Hdec in Hexit. simpl in Hexit.
  destruct Hexit as [(Hidx & _) Htest]. unfold loop_test in Htest. lia.
Qed.

Lemma declared_size_beyond_input_raises_witness :
  unpack_by UnpackTiles [0x00; 0x04; 0x21; 0xAA] 0 = Raised IndexError.
Proof.
  apply (declared_size_beyond_input_raises UnpackTiles
           [0x00; 0x04; 0x21; 0xAA] 0 4); [reflexivity | vm_compute; discriminate].
Defined.

(** X10. The output of a block that is decoded is at most 22 times as long
    as the input after its header, and at most 22 times the declared size
    plus 33. *)
Theorem decoded_length_bound d data addr size turns st :
  declared_size (Py.slice_from data addr) = Ok size ->
  decode (body_of d) data addr = (turns, Finished st) ->
  Py.len (res st) <= 22 * (Py.len (Py.slice_from data addr) - 2) /\
  Py.len (res st) <= 22 * Z.max 0 (size + 33).
Proof.
  intros Hsize Hdec.
  destruct (decode_well_placed d data addr size Hsize) as [_ Hexit].
  rewrite Hdec in Hexit. simpl in Hexit.
  destruct Hexit as [(Hidx & Hmax & Hlen & _) _]. lia.
Qed.

Lemma decoded_length_bound_witness :
  Py.len (res (mkState 4 3 [0xAA; 0xAA; 0xAA]))
    <= 22 * (Py.len (Py.slice_from [0x00; 0x03; 0x21; 0xAA] 0) - 2) /\
  Py.len (res (mkState 4 3 [0xAA; 0xAA; 0xAA])) <= 22 * Z.max 0 (3 + 33).
Proof.
  apply (decoded_length_bound UnpackTiles [0x00; 0x03; 0x21; 0xAA] 0 3
           [initial] (mkState 4 3 [0xAA; 0xAA; 0xAA])); reflexivity.
Defined.

Lemma slice_from_incl data addr x :
  In x (Py.slice_from data addr) -> In x data.
Proof.
  unfold Py.slice_from. generalize (Z.to_nat
    (if addr <? 0 then Z.max 0 (Py.len data + addr)
     else Z.min addr (Py.len data))). intros n.
  revert data. induction n as [|n IH]; intros data H; [exact H|].
  destruct data as [|y data]; [exact H|]. right. apply IH. exact H.
Qed.

(** X11. Every byte a decoder produces occurs in the ROM buffer, at or
    after the block address: the decoders compute no new byte values, so
    any property of all input bytes (such as lying in 0..255) holds of all
    output bytes. *)
Theorem decoded_bytes_occur_in_input d data addr r :
  unpack_by d data addr = Finished r ->
  (forall x, In x r -> In x (Py.slice_from data addr)) /\
  (forall P : Z -> Prop, Forall P data -> Forall P r).
Proof.
  unfold unpack_by, decoded. intros H.
  destruct (decode (body_of d) data addr) as [turns out] eqn:Hdec.
  simpl in H. destruct out as [st| |]; try discriminate.
  injection H as <-.
  destruct (decode_finished_size _ _ _ _ _ Hdec) as [size Hsize].
  destruct (decode_well_placed d data addr size Hsize) as [_ Hexit].
  rewrite Hdec in Hexit. simpl in Hexit.
  destruct Hexit as [(_ & _ & _ & Hin) _]. split; [exact Hin|].
  intros P HP. rewrite Forall_forall in *. intros x Hx.
  apply HP. eapply slice_from_incl. apply Hin. exact Hx.
Qed.

Lemma decoded_bytes_occur_in_input_witness :
  (forall x, In x [0xAA; 0xAA; 0xAA] ->
             In x (Py.slice_from [0x00; 0x03; 0x21; 0xAA] 0)) /\
  (forall P : Z -> Prop,
      Forall P [0x00; 0x03; 0x21; 0xAA] -> Forall P [0xAA; 0xAA; 0xAA]).
Proof.
  apply (decoded_bytes_occur_in_input UnpackTiles [0x00; 0x03; 0x21; 0xAA] 0
           [0xAA; 0xAA; 0xAA]); reflexivity.
Defined.

(** ** The block address *)

Lemma slice_from_len data addr :
  Py.len (Py.slice_from data addr)
  = if addr <? 0 then Z.min (Py.len data) (- addr)
    else Z.max 0 (Py.len data - addr).
Proof.
  unfold Py.slice_from, Py.len. rewrite length_skipn.
  destruct (addr <? 0) eqn:E; lia.
Qed.

Lemma declared_size_ok arr :
  2 <= Py.len arr -> exists size, declared_size arr = Ok size.
Proof.
  intros H. unfold declared_size. rewrite !getitem_nonneg by lia.
  cbn [bind]. eauto.
Qed.

Lemma while_loop_raised_turn body fuel arr size st e :
  while_loop body fuel arr size st <> ([], Raised e).
Proof.
  destruct fuel as [|fuel]; simpl; destruct (loop_test arr size st);
    try discriminate.
  destruct (body arr st) as [st'|e']; [|discriminate].
  destruct (while_loop body fuel arr size st'). discriminate.
Qed.

(** X12. A decoder raises [IndexError] before its first turn exactly when
    fewer than two bytes are available from the block address: an address
    within the last byte of the buffer or beyond it, or the address -1,
    which Python counts from the end. *)
Theorem header_unreadable_iff d data addr :
  decode (body_of d) data addr = ([], Raised IndexError)
  <-> (if addr <? 0 then Z.min (Py.len data) (- addr)
       else Py.len data - addr) < 2.
Proof.
  assert ((if addr <? 0 then Z.min (Py.len data) (- addr)
           else Py.len data - addr) < 2
          <-> Py.len (Py.slice_from data addr) < 2) as ->.
  { rewrite slice_from_len. destruct (addr <? 0); lia. }
  split.
  - intros H.
    destruct (Z_lt_dec (Py.len (Py.slice_from data addr)) 2) as [|Hge];
      [assumption|exfalso].
    destruct (declared_size_ok (Py.slice_from data addr) ltac:(lia))
      as [size Hsize].
    unfold decode in H. rewrite Hsize in H.
    exact (while_loop_raised_turn _ _ _ _ _ _ H).
  - intros H. unfold decode. now rewrite declared_size_raise.
Qed.

Lemma slice_from_app_len (pre block : list Z) :
  Py.slice_from (pre ++ block) (Py.len pre) = block.
Proof.
  unfold Py.slice_from. pose proof (len_nonneg pre) as Hp.
  pose proof (len_nonneg block) as Hb.
  replace (Py.len pre <? 0) with false by (symmetry; apply Z.ltb_ge; lia).
  rewrite len_app, Z.min_l by lia. unfold Py.len. rewrite Nat2Z.id.
  rewrite skipn_app, skipn_all, Nat.sub_diag. reflexivity.
Qed.

Lemma slice_from_zero (block : list Z) : Py.slice_from block 0 = block.
Proof. apply (slice_from_app_len [] block). Qed.

(** X13. Decoding does not depend on where the block lies in the buffer
    nor on the bytes before it: a block at the address [len(pre)] of
    [pre ++ block] is decoded as the same block at address 0. *)
Theorem decode_relocates d (pre block : list Z) :
  decode (body_of d) (pre ++ block) (Py.len pre)
    = decode (body_of d) block 0 /\
  unpack_by d (pre ++ block) (Py.len pre) = unpack_by d block 0.
Proof.
  assert (decode (body_of d) (pre ++ block) (Py.len pre)
          = decode (body_of d) block 0) as H.
  { unfold decode. rewrite slice_from_app_len, slice_from_zero.
    reflexivity. }
  split; [exact H|]. unfold unpack_by. now rewrite H.
Qed.

(** ** Bytes after the block *)

Lemma getitem_app_l arr extra i v :
  Py.getitem arr i = Ok v -> 0 <= i -> Py.getitem (arr ++ extra) i = Ok v.
Proof.
  intros H Hi. pose proof (getitem_ok_below _ _ _ H Hi) as Hlt.
  rewrite getitem_nonneg in H by lia.
  pose proof (len_nonneg extra).
  rewrite getitem_nonneg by (rewrite len_app; lia).
  rewrite app_nth1 by (unfold Py.len in Hlt; lia). exact H.
Qed.

Lemma run_literal_app extra n : forall arr i ir r x,
  run_literal n arr i ir r = Ok x -> 0 <= i + 1 ->
  run_literal n (arr ++ extra) i ir r = Ok x.
Proof.
  induction n as [|n IH]; intros arr i ir r x H Hi; [exact H|].
  cbn [run_literal] in *.
  destruct (Py.getitem arr (i + 1)) as [s|e] eqn:Hs; simpl in H;
    [|discriminate].
  rewrite (getitem_app_l _ _ _ _ Hs Hi). cbn [bind]. apply IH; [exact H|lia].
Qed.

Lemma run_alternating_app extra n : forall arr z i ir r x,
  run_alternating n arr z i ir r = Ok x -> 0 <= i + 1 ->
  run_alternating n (arr ++ extra) z i ir r = Ok x.
Proof.
  induction n as [|n IH]; intros arr z i ir r x H Hi; [exact H|].
  cbn [run_alternating] in *.
  destruct (Py.getitem arr (i + 1)) as [s|e] eqn:Hs; simpl in H;
    [|discriminate].
  rewrite (getitem_app_l _ _ _ _ Hs Hi). cbn [bind]. apply IH; [exact H|lia].
Qed.

Lemma short_opcode_app extra arr b st st' :
  short_opcode arr b st = Ok st' -> 0 <= idx st ->
  short_opcode (arr ++ extra) b st = Ok st'.
Proof.
  unfold short_opcode. intros H Hi.
  destruct (negb (Z.land b (Z.shiftl 1 5) =? 0)),
    (negb (Z.land b (Z.shiftl 1 6) =? 0)).
  - destruct (Py.getitem arr (idx st + 1)) as [z|e] eqn:Hz; simpl in H;
      [|discriminate].
    rewrite (getitem_app_l _ _ _ _ Hz) by lia. cbn [bind].
    destruct (run_alternating _ arr z _ _ _) as [x|e] eqn:E; simpl in H;
      [|discriminate].
    rewrite (run_alternating_app extra _ _ _ _ _ _ _ E) by lia. exact H.
  - destruct (Py.getitem arr (idx st + 1)) as [s|e] eqn:Hs; simpl in H;
      [|discriminate].
    rewrite (getitem_app_l _ _ _ _ Hs) by lia. exact H.
  - destruct (Py.getitem arr (idx st + 1)) as [s1|e] eqn:Hs1; simpl in H;
      [|discriminate].
    destruct (Py.getitem arr (idx st + 2)) as [s2|e] eqn:Hs2; simpl in H;
      [|discriminate].
    rewrite (getitem_app_l _ _ _ _ Hs1), (getitem_app_l _ _ _ _ Hs2) by lia.
    exact H.
  - destruct (run_literal _ arr _ _ _) as [x|e] eqn:E; simpl in H;
      [|discriminate].
    rewrite (run_literal_app extra _ _ _ _ _ _ E) by lia. exact H.
Qed.

Lemma body_with_app distance extra arr st st' :
  body_with distance arr st = Ok st' -> 0 <= idx st ->
  body_with distance (arr ++ extra) st = Ok st'.
Proof.
  unfold body_with. intros H Hi.
  destruct (Py.getitem arr (idx st)) as [b|e] eqn:Hb; simpl in H;
    [|discriminate].
  rewrite (getitem_app_l _ _ _ _ Hb Hi). cbn [bind].
  destruct (0x80 <=? b).
  - destruct (Py.getitem arr (idx st + 1)) as [s|e] eqn:Hs; simpl in H;
      [|discriminate].
    rewrite (getitem_app_l _ _ _ _ Hs) by lia. exact H.
  - destruct (short_opcode arr b st) as [st1|e] eqn:E; simpl in H;
      [|discriminate].
    rewrite (short_opcode_app extra _ _ _ _ E Hi). exact H.
Qed.

Lemma loop_test_app extra arr size st :
  idx st <= Py.len arr ->
  loop_test (arr ++ extra) size st = loop_test arr size st.
Proof.
  intros H. pose proof (len_nonneg extra). unfold loop_test.
  rewrite len_app. f_equal.
  replace (idx st <=? Py.len arr) with true by (symmetry; apply Z.leb_le; lia).
  apply Z.leb_le. lia.
Qed.

Lemma while_loop_app distance extra arr size fuel : forall st turns stf,
  0 <= idx st <= Py.len arr ->
  while_loop (body_with distance) fuel arr size st = (turns, Finished stf) ->
  while_loop (body_with distance) fuel (arr ++ extra) size st
  = (turns, Finished stf).
Proof.
  induction fuel as [|fuel IH]; intros st turns stf Hi H; simpl in *;
    rewrite loop_test_app by lia; destruct (loop_test arr size st);
    try exact H.
  destruct (body_with distance arr st) as [st'|e] eqn:Hb; [|discriminate].
  rewrite (body_with_app _ extra _ _ _ Hb) by lia.
  pose proof (body_with_within _ _ _ _ Hb ltac:(lia)) as Hw.
  destruct (body_with_progress _ _ _ _ Hb) as (_ & _ & _ & Hadv & _).
  destruct (while_loop (body_with distance) fuel arr size st')
    as [t o] eqn:Hrec.
  injection H as <- ->.
  rewrite (IH st' t stf); [reflexivity|lia|exact Hrec].
Qed.

Lemma slice_from_app_r data extra addr :
  0 <= addr <= Py.len data ->
  Py.slice_from (data ++ extra) addr = Py.slice_from data addr ++ extra.
Proof.
  intros H. pose proof (len_nonneg extra). unfold Py.slice_from.
  replace (addr <? 0) with false by (symmetry; apply Z.ltb_ge; lia).
  rewrite len_app, !Z.min_l by lia. rewrite skipn_app.
  replace (Z.to_nat addr - length data)%nat with 0%nat
    by (unfold Py.len in H; lia).
  reflexivity.
Qed.

(** X14. A block that is decoded is decoded the same, turn by turn, when
    further bytes follow in the buffer: a decoder that leaves its loop
    normally has read nothing beyond what it consumed. *)
Theorem finished_ignores_trailing_bytes d data extra addr turns st :
  0 <= addr ->
  decode (body_of d) data addr = (turns, Finished st) ->
  decode (body_of d) (data ++ extra) addr = (turns, Finished st).
Proof.
  intros Haddr H.
  destruct (decode_finished_size _ _ _ _ _ H) as [size Hsize].
  pose proof (declared_size_len _ _ Hsize) as Hlen.
  assert (addr <= Py.len data) as Hle.
  { rewrite slice_from_len in Hlen.
    replace (addr <? 0) with false in Hlen
      by (symmetry; apply Z.ltb_ge; lia). lia. }
  unfold decode in *. rewrite slice_from_app_r by lia.
  rewrite Hsize in H.
  assert (declared_size (Py.slice_from data addr ++ extra) = Ok size) as ->.
  { unfold declared_size in *.
    destruct (Py.getitem (Py.slice_from data addr) 0) as [a0|e] eqn:H0;
      simpl in Hsize; [|discriminate].
    destruct (Py.getitem (Py.slice_from data addr) 1) as [a1|e] eqn:H1;
      simpl in Hsize; [|discriminate].
    rewrite (getitem_app_l _ _ _ _ H0), (getitem_app_l _ _ _ _ H1) by lia.
    exact Hsize. }
  replace (body_of d) with (body_with (distance_of d)) in *
    by (destruct d; reflexivity).
  apply while_loop_app; [simpl; lia|exact H].
Qed.

Lemma finished_ignores_trailing_bytes_witness :
  decode (body_of UnpackTiles) ([0x00; 0x03; 0x21; 0xAA] ++ [0x90; 0x02]) 0
  = ([initial], Finished (mkState 4 3 [0xAA; 0xAA; 0xAA])).
Proof.
  apply (finished_ignores_trailing_bytes UnpackTiles [0x00; 0x03; 0x21; 0xAA]
           [0x90; 0x02] 0 [initial] (mkState 4 3 [0xAA; 0xAA; 0xAA]));
    [lia | reflexivity].
Defined.

(** ** The output across turns *)

Lemma while_loop_prefix distance arr size fuel : forall st turns stf,
  while_loop (body_with distance) fuel arr size st = (turns, Finished stf) ->
  (exists t, res stf = res st ++ t) /\
  Forall (fun s => exists t, res stf = res s ++ t) turns.
Proof.
  induction fuel as [|fuel IH]; intros st turns stf H; simpl in H;
    destruct (loop_test arr size st); try discriminate.
  - injection H as <- <-. split; [exists []; now rewrite app_nil_r|constructor].
  - destruct (body_with distance arr st) as [st'|e] eqn:Hb; [|discriminate].
    destruct (while_loop (body_with distance) fuel arr size st')
      as [t o] eqn:Hrec.
    injection H as <- ->. destruct (IH _ _ _ Hrec) as [[t2 Ht2] Hall].
    destruct (body_with_progress _ _ _ _ Hb) as (t1 & Ht1 & _).
    assert (exists t0, res stf = res st ++ t0) as Hpre.
    { exists (t1 ++ t2). rewrite Ht2, Ht1, app_assoc. reflexivity. }
    split; [exact Hpre|]. constructor; assumption.
  - injection H as <- <-. split; [exists []; now rewrite app_nil_r|constructor].
Qed.

(** X15. A decoder never changes a byte it has produced: the output with
    which any turn began is a prefix of the output the decoder ends
    with. *)
Theorem output_grows_by_appending d data addr turns st :
  decode (body_of d) data addr = (turns, Finished st) ->
  Forall (fun s => exists t, res st = res s ++ t) turns.
Proof.
  unfold decode.
  destruct (declared_size (Py.slice_from data addr)) as [size|e];
    [|discriminate].
  replace (body_of d) with (body_with (distance_of d))
    by (destruct d; reflexivity).
  intros H. apply while_loop_prefix in H. apply H.
Qed.

Lemma output_grows_by_appending_witness :
  Forall (fun s => exists t,
            res (mkState 7 5 [0x11; 0x22; 0xAA; 0xAA; 0xAA]) = res s ++ t)
    [initial; mkState 5 2 [0x11; 0x22]].
Proof.
  apply (output_grows_by_appending UnpackTiles
           [0x00; 0x06; 0x01; 0x11; 0x22; 0x21; 0xAA] 0
           [initial; mkState 5 2 [0x11; 0x22]]
           (mkState 7 5 [0x11; 0x22; 0xAA; 0xAA; 0xAA])).
  reflexivity.
Defined.

Lemma while_loop_turns_bound distance arr size fuel : forall st,
  2 * Z.of_nat (length (fst (while_loop (body_with distance) fuel arr size st)))
  <= Z.max 0 (size + 2 - idx st).
Proof.
  induction fuel as [|fuel IH]; intros st; cbn [while_loop];
    destruct (loop_test arr size st) eqn:Ht; cbn [fst length]; try lia.
  unfold loop_test in Ht.
  destruct (body_with distance arr st) as [st'|e] eqn:Hb;
    [|cbn [fst length]; lia].
  destruct (body_with_progress _ _ _ _ Hb) as (_ & _ & _ & Hadv & _).
  specialize (IH st').
  destruct (while_loop (body_with distance) fuel arr size st') as [t o].
  cbn [fst length] in *. lia.
Qed.

(** X16. Every turn consumes at least two input bytes, so the number of
    turns of either decoder is at most half the declared size, with any
    fuel and on any input. *)
Theorem turns_at_most_half_size d fuel arr size :
  2 * Z.of_nat (length (fst (while_loop (body_of d) fuel arr size initial)))
  <= Z.max 0 size.
Proof.
  replace (body_of d) with (body_with (distance_of d))
    by (destruct d; reflexivity).
  pose proof (while_loop_turns_bound (distance_of d) arr size fuel initial)
    as H. cbn [idx initial] in H. lia.
Qed.

(** ** The two distances *)

(** X17. In [unpack_tiles] the distance of a back-reference with opcode
    [b] and operand byte [s] is ((b*256 + s) mod 1024) + 1, between 1 and
    1024: the low two bits of [b] times 256, plus [s], plus 1. *)
Theorem tiles_distance_formula b s :
  0 <= s < 256 ->
  distance_of UnpackTiles b s = spec_distance b s /\
  distance_of UnpackTiles b s = (b mod 4) * 256 + s + 1 /\
  1 <= distance_of UnpackTiles b s <= 1024.
Proof.
  intros Hs. cbn [distance_of].
  destruct (tiles_distance_spec b s) as [Heq Hrange].
  split; [exact Heq|]. split; [|exact Hrange].
  rewrite Heq. unfold spec_distance. f_equal.
  pose proof (Z.mod_pos_bound b 4 ltac:(lia)) as Hb.
  symmetry. apply Z.mod_unique with (b / 4); [lia|].
  pose proof (Z.div_mod b 4 ltac:(lia)). lia.
Qed.

Lemma tiles_distance_formula_witness :
  distance_of UnpackTiles 0x93 0x02 = spec_distance 0x93 0x02 /\
  distance_of UnpackTiles 0x93 0x02 = (0x93 mod 4) * 256 + 0x02 + 1 /\
  1 <= distance_of UnpackTiles 0x93 0x02 <= 1024.
Proof. apply (tiles_distance_formula 0x93 0x02). lia. Defined.

(** X18. In [unpack] the distance of a back-reference depends on the sum
    of opcode and operand modulo 4 alone: it is one of 1, 257, 513 and
    769. *)
Theorem unpack_distance_formula b s :
  distance_of Unpack b s = ((b + s) mod 4) * 256 + 1 /\
  (distance_of Unpack b s = 1 \/ distance_of Unpack b s = 257 \/
   distance_of Unpack b s = 513 \/ distance_of Unpack b s = 769).
Proof.
  cbn [distance_of]. rewrite unpack_distance_spec. split; [reflexivity|].
  pose proof (Z.mod_pos_bound (b + s) 4 ltac:(lia)). lia.
Qed.

(** * The batch loop of [main] in split.py *)

Lemma unpack_tiles_cases data addr :
  (exists r, unpack_tiles data addr = Finished r) \/
  unpack_tiles data addr = Raised IndexError.
Proof.
  pose proof (decode_terminates data addr) as [_ H].
  destruct (unpack_tiles data addr) as [r|[]|]; [eauto|auto|contradiction].
Qed.

Lemma extract_fold data addrs : forall t,
  fold_left (extract data) addrs t
  = mkTally (success_count t + success_count (extract_all data addrs))
      (fail_count t + fail_count (extract_all data addrs))
      (written t ++ written (extract_all data addrs)).
Proof.
  unfold extract_all.
  induction addrs as [|a addrs IH]; intros [s f w]; simpl.
  - rewrite app_nil_r, !Z.add_0_r. reflexivity.
  - rewrite IH, (IH (extract data (mkTally 0 0 []) a)).
    generalize (fold_left (extract data) addrs (mkTally 0 0 [])). intros T.
    unfold extract. destruct (unpack_tiles data a) as [r|e|];
      cbn [success_count fail_count written];
      rewrite <- ?app_assoc; cbn [app]; f_equal; lia.
Qed.

Lemma extract_all_cons data a addrs :
  extract_all data (a :: addrs)
  = match unpack_tiles data a with
    | Finished r =>
        mkTally (1 + success_count (extract_all data addrs))
          (fail_count (extract_all data addrs))
          ((a, r) :: written (extract_all data addrs))
    | _ =>
        mkTally (success_count (extract_all data addrs))
          (1 + fail_count (extract_all data addrs))
          (written (extract_all data addrs))
    end.
Proof.
  unfold extract_all at 1. simpl. rewrite extract_fold. unfold extract.
  destruct (unpack_tiles_cases data a) as [[r ->]| ->]; simpl; f_equal; lia.
Qed.

Lemma extract_all_app data addrs addrs' :
  extract_all data (addrs ++ addrs')
  = mkTally
      (success_count (extract_all data addrs)
       + success_count (extract_all data addrs'))
      (fail_count (extract_all data addrs)
       + fail_count (extract_all data addrs'))
      (written (extract_all data addrs) ++ written (extract_all data addrs')).
Proof.
  unfold extract_all at 1. rewrite fold_left_app.
  fold (extract_all data addrs). apply extract_fold.
Qed.

Lemma extract_all_sums data tiles_addrs :
  success_count (extract_all data tiles_addrs)
    + fail_count (extract_all data tiles_addrs) = Py.len tiles_addrs /\
  success_count (extract_all data tiles_addrs)
    = Py.len (written (extract_all data tiles_addrs)) /\
  0 <= fail_count (extract_all data tiles_addrs).
Proof.
  induction tiles_addrs as [|a addrs IH].
  - repeat split; vm_compute; congruence.
  - rewrite extract_all_cons.
    unfold Py.len in *. destruct IH as (IH1 & IH2 & IH3).
    destruct (unpack_tiles data a) as [r|e|];
      cbn [success_count fail_count written length];
      rewrite ?Nat2Z.inj_succ; lia.
Qed.

(** X19. The batch loop accounts for every address: the blocks decoded and
    the blocks failed add up to the number of addresses, and one file is
    written per block decoded. *)
Theorem extract_all_counts data tiles_addrs :
  success_count (extract_all data tiles_addrs)
    + fail_count (extract_all data tiles_addrs) = Py.len tiles_addrs /\
  success_count (extract_all data tiles_addrs)
    = Py.len (written (extract_all data tiles_addrs)) /\
  0 <= fail_count (extract_all data tiles_addrs).
Proof. apply extract_all_sums. Qed.

(** X20. The files written are the decoded blocks: (addr, bytes) is written
    exactly when addr is in the address list and [unpack_tiles] decodes
    the block at addr to bytes. *)
Theorem written_iff_decoded data tiles_addrs addr r :
  In (addr, r) (written (extract_all data tiles_addrs))
  <-> In addr tiles_addrs /\ unpack_tiles data addr = Finished r.
Proof.
  induction tiles_addrs as [|a addrs IH].
  - simpl. tauto.
  - rewrite extract_all_cons.
    destruct (unpack_tiles data a) as [ra|e|] eqn:Ha; simpl; rewrite IH;
      (split; [intros H|intros [[<-|H1] H2]]);
      try tauto; try congruence.
    + destruct H as [H|H]; [|tauto]. injection H as <- <-. auto.
    + left. congruence.
Qed.

(** X21. [main] returns 0 exactly when every block of the address list is
    decoded, and 1 otherwise. *)
Theorem main_status_zero_iff data tiles_addrs :
  (main_status data tiles_addrs = 0
   <-> Forall (fun addr => exists r, unpack_tiles data addr = Finished r)
         tiles_addrs) /\
  (main_status data tiles_addrs = 0 \/ main_status data tiles_addrs = 1).
Proof.
  unfold main_status. split.
  - induction tiles_addrs as [|a addrs IH].
    + split; [constructor|reflexivity].
    + pose proof (extract_all_sums data addrs) as (_ & _ & Hf).
      rewrite extract_all_cons.
      destruct (unpack_tiles_cases data a) as [[r Ha]|Ha]; rewrite Ha;
        cbn [fail_count].
      * rewrite IH. split; intros H.
        -- constructor; eauto.
        -- inversion H. assumption.
      * destruct (1 + fail_count (extract_all data addrs) >? 0) eqn:E;
          [|lia].
        split; [discriminate|]. intros H. inversion H as [|x l [r Hr] Hl].
        rewrite Ha in Hr. discriminate.
  - destruct (fail_count (extract_all data tiles_addrs) >? 0); auto.
Qed.

(** X22. A block that fails is isolated: the address of a block on which
    [unpack_tiles] raises adds one to the failures and makes [main] return
    1, and the blocks decoded and the files written are those of the
    address list without it. *)
Theorem failed_block_is_isolated data before bad after e :
  unpack_tiles data bad = Raised e ->
  written (extract_all data (before ++ bad :: after))
    = written (extract_all data (before ++ after)) /\
  success_count (extract_all data (before ++ bad :: after))
    = success_count (extract_all data (before ++ after)) /\
  fail_count (extract_all data (before ++ bad :: after))
    = fail_count (extract_all data (before ++ after)) + 1 /\
  main_status data (before ++ bad :: after) = 1.
Proof.
  intros Hbad. unfold main_status.
  rewrite !extract_all_app, extract_all_cons, Hbad.
  cbn [success_count fail_count written].
  pose proof (extract_all_sums data before) as (_ & _ & Hb).
  pose proof (extract_all_sums data after) as (_ & _ & Ha).
  split; [reflexivity|]. split; [reflexivity|]. split; [lia|].
  destruct (_ >? 0) eqn:E; [reflexivity|lia].
Qed.

Lemma failed_block_is_isolated_witness :
  written (extract_all [0x00; 0x03; 0x21; 0xAA] ([0] ++ 3 :: [0]))
    = written (extract_all [0x00; 0x03; 0x21; 0xAA] ([0] ++ [0])) /\
  success_count (extract_all [0x00; 0x03; 0x21; 0xAA] ([0] ++ 3 :: [0]))
    = success_count (extract_all [0x00; 0x03; 0x21; 0xAA] ([0] ++ [0])) /\
  fail_count (extract_all [0x00; 0x03; 0x21; 0xAA] ([0] ++ 3 :: [0]))
    = fail_count (extract_all [0x00; 0x03; 0x21; 0xAA] ([0] ++ [0])) + 1 /\
  main_status [0x00; 0x03; 0x21; 0xAA] ([0] ++ 3 :: [0]) = 1.
Proof.
  apply (failed_block_is_isolated [0x00; 0x03; 0x21; 0xAA] [0] 3 [0]
           IndexError). reflexivity.
Defined.

(** * The hexadecimal dump *)

Module LogFacts.

Import Ascii String Log.

Lemma below_256_cases (P : Z -> bool) :
  forallb P (map Z.of_nat (seq 0 256)) = true ->
  forall b, 0 <= b < 256 -> P b = true.
Proof.
  intros H b Hb. rewrite forallb_forall in H. apply H.
  rewrite <- (Z2Nat.id b) by lia. apply in_map, in_seq. lia.
Qed.

(** X23. A byte is printed as exactly two upper-case hexadecimal digits,
    the high nibble first, and two different bytes are printed
    differently. *)
Theorem format_02X_byte b :
  0 <= b < 256 ->
  format_02X b
    = String (hex_digit (b / 16)) (String (hex_digit (b mod 16)) EmptyString)
  /\
  forall b', 0 <= b' < 256 -> format_02X b' = format_02X b -> b' = b.
Proof.
  intros Hb. split.
  - apply String.eqb_eq.
    apply (below_256_cases
             (fun b => String.eqb (format_02X b)
                (String (hex_digit (b / 16))
                   (String (hex_digit (b mod 16)) EmptyString))));
      [|exact Hb].
    vm_compute. reflexivity.
  - intros b' Hb' Heq.
    pose proof (below_256_cases
      (fun a => forallb
         (fun c => implb (String.eqb (format_02X c) (format_02X a)) (c =? a))
         (map Z.of_nat (seq 0 256)))
      ltac:(vm_compute; reflexivity) b Hb) as H.
    cbv beta in H. rewrite forallb_forall in H.
    assert (In b' (map Z.of_nat (seq 0 256))) as Hin
      by (rewrite <- (Z2Nat.id b') by lia; apply in_map, in_seq; lia).
    specialize (H b' Hin). cbv beta in H.
    rewrite (proj2 (String.eqb_eq _ _) Heq) in H. cbn [implb] in H.
    apply Z.eqb_eq. exact H.
Qed.

Lemma format_02X_byte_witness :
  format_02X 0xAB
    = String (hex_digit (0xAB / 16))
        (String (hex_digit (0xAB mod 16)) EmptyString) /\
  forall b', 0 <= b' < 256 -> format_02X b' = format_02X 0xAB -> b' = 0xAB.
Proof. apply (format_02X_byte 0xAB). lia. Defined.

Lemma append_assoc_string (a b c : string) :
  ((a ++ b) ++ c = a ++ b ++ c)%string.
Proof. induction a as [|x a IH]; simpl; [reflexivity|]. now rewrite IH. Qed.

(** X24. The dump is laid out in rows of sixteen: the first sixteen items
    are printed as eight cells, two further spaces, eight cells and a line
    break, after which the rest is printed as from the start. *)
Theorem log_hex_data_row (left right rest : list Z) :
  List.length left = 8%nat ->
  List.length right = 8%nat ->
  log_hex_data (left ++ right ++ rest)
  = (newline ++ cells left ++ "  " ++ cells right ++ newline
     ++ log_loop rest 0)%string.
Proof.
  intros Hl Hr. unfold log_hex_data. f_equal.
  do 9 (destruct left as [|? left]; try discriminate).
  do 9 (destruct right as [|? right]; try discriminate).
  cbn [app log_loop cells fold_right Z.add Z.eqb Pos.add Pos.succ Pos.eqb].
  repeat rewrite append_assoc_string. reflexivity.
Qed.

Lemma log_hex_data_row_witness :
  log_hex_data ([0; 1; 2; 3; 4; 5; 6; 7] ++ [8; 9; 10; 11; 12; 13; 14; 15]
                ++ [16])
  = (newline ++ cells [0; 1; 2; 3; 4; 5; 6; 7] ++ "  "
     ++ cells [8; 9; 10; 11; 12; 13; 14; 15] ++ newline
     ++ log_loop [16] 0)%string.
Proof.
  apply (log_hex_data_row [0; 1; 2; 3; 4; 5; 6; 7]
           [8; 9; 10; 11; 12; 13; 14; 15] [16]); reflexivity.
Defined.

End LogFacts.
